(** * Monitoring-Alerting: the Grafana multi-source gateway and the JSM ticket filer

    A shallow embedding of [grafana_multi_api.py] and [jsm-api-test.py].

    - Python exceptions are values of [exn]; code that can raise returns
      [result]; a [try ... except Exception] block is [try_except].
    - Everything outside the process (HTTP endpoints, the PostgreSQL server,
      the Elasticsearch cluster) is an oracle of the record [world], indexed
      by the number of I/O events issued so far, so that two calls to the
      same endpoint may answer differently.  Every outbound call is recorded
      in the trace of the program state.
    - Python [int] is [Z]; a finite Python [float] is the rational it
      denotes, and every floating-point operation rounds its exact result to
      the nearest binary64 value ([round_double]).
    - A timezone-aware UTC [datetime] is its number of microseconds since
      the epoch, between [dt_min] (0001-01-01T00:00:00) and [dt_max]
      (9999-12-31T23:59:59.999999); arithmetic leaving that span raises
      [OverflowError], as [datetime.__add__] does. *)

From Stdlib Require Import ZArith QArith Qabs Lqa Lia Bool.
From Stdlib Require Import String Ascii List Sorted.
From stdpp Require Import gmap strings.
From Equations Require Import Equations.

Set Warnings "-register-all".
#[local] Open Scope string_scope.
#[local] Open Scope list_scope.
#[local] Open Scope Z_scope.

(** ** Exceptions and fallible computations *)

Inductive exn : Type :=
  | KeyError | TypeError | ValueError | AttributeError | OverflowError
  | HTTPError | ConnectionError | Timeout | JSONDecodeError
  | DatabaseError | TransportError.

Inductive result (A : Type) : Type :=
  | Ok (a : A)
  | Raise (e : exn).
Arguments Ok {A} a.
Arguments Raise {A} e.

#[global] Instance result_ret : MRet result := fun _ a => Ok a.
#[global] Instance result_bind : MBind result := fun _ _ k r =>
  match r with
  | Ok a => k a
  | Raise e => Raise e
  end.
#[global] Instance result_fmap : FMap result := fun _ _ f r =>
  match r with
  | Ok a => Ok (f a)
  | Raise e => Raise e
  end.

(** [try: body except Exception: handler] *)
Definition try_except {A} (body : result A) (handler : exn -> A) : A :=
  match body with
  | Ok a => a
  | Raise e => handler e
  end.

Definition succeeds {A} (r : result A) : Prop := exists a, r = Ok a.

(** ** Python numbers *)

Definition pow2 (e : Z) : Q :=
  if 0 <=? e then inject_Z (2 ^ e) else 1 # Z.to_pos (2 ^ (- e)).

(** The numerator and denominator of [|x| / 2^e]. *)
Definition scaled (a d e : Z) : Z * Z :=
  (a * 2 ^ Z.max 0 (- e), d * 2 ^ Z.max 0 e).

(** The exponent of the unit in the last place of the binary64 value nearest
    to [a / d]: the one for which [a / d / 2^e] has 53 bits before the
    point. *)
Definition exponent (a d : Z) : Z :=
  let e1 := Z.log2 a - Z.log2 d - 53 in
  if 2 ^ 53 <=? fst (scaled a d e1) / snd (scaled a d e1) then e1 + 1 else e1.

(** Round to nearest, ties to even, with a 53-bit significand.  The
    magnitudes this program computes with stay inside the binary64 normal
    range, so the exponent is not clamped. *)
Definition round_double (x : Q) : Q :=
  let n := Qnum x in
  let d := Zpos (Qden x) in
  if n =? 0 then 0%Q else
  let a := Z.abs n in
  let e := exponent a d in
  let N := fst (scaled a d e) in
  let D := snd (scaled a d e) in
  let q := N / D in
  let r := N mod D in
  let m := if (D <? 2 * r) || ((D =? 2 * r) && Z.odd q) then q + 1 else q in
  (inject_Z (Z.sgn n * m) * pow2 e)%Q.

(** [int(x)] for a float [x]: truncation towards zero. *)
Definition Qtrunc (x : Q) : Z := Z.quot (Qnum x) (Zpos (Qden x)).

Inductive number : Type :=
  | PyInt (z : Z)
  | PyFloat (q : Q).

(** Largest finite binary64 value. *)
Definition double_max : Z := (2 ^ 53 - 1) * 2 ^ 971.

(** [float(z)] for an int: [OverflowError] beyond the binary64 range. *)
Definition float_of_int (z : Z) : result Q :=
  let f := round_double (inject_Z z) in
  if Qle_bool (Qabs f) (inject_Z double_max) then Ok (Qred f)
  else Raise OverflowError.

Definition float_of_number (v : number) : result Q :=
  match v with
  | PyInt z => float_of_int z
  | PyFloat q => Ok q
  end.

(** [v + k] for an int [k]. *)
Definition add_int (v : number) (k : Z) : result number :=
  match v with
  | PyInt z => Ok (PyInt (z + k))
  | PyFloat q => Ok (PyFloat (Qred (round_double (q + inject_Z k))))
  end.

(** [v + x] for a float [x]. *)
Definition add_float (v : number) (x : Q) : result number :=
  f ← float_of_number v;
  Ok (PyFloat (Qred (round_double (f + x)))).

(** The literal [0.1]. *)
Definition float_0_1 : Q := round_double (1 # 10).

(** [hash(n)] for an int: reduction modulo the Mersenne prime 2^61 - 1,
    keeping the sign, with -1 reserved. *)
Definition py_hash_int (n : Z) : Z :=
  let h := Z.sgn n * (Z.abs n mod (2 ^ 61 - 1)) in
  if h =? -1 then -2 else h.

(** ** JSON values as Python objects *)

Inductive json : Type :=
  | JNull
  | JBool (b : bool)
  | JNum (n : number)
  | JStr (s : string)
  | JArr (l : list json)
  | JObj (o : gmap string json).

(** [obj[key]] for a string key. *)
Definition getitem (obj : json) (key : string) : result json :=
  match obj with
  | JObj o =>
      match o !! key with
      | Some v => Ok v
      | None => Raise KeyError
      end
  | _ => Raise TypeError
  end.

Definition json_is_str (s : string) (j : json) : bool :=
  match j with
  | JStr t => bool_decide (s = t)
  | _ => false
  end.

Fixpoint is_prefix (p s : string) : bool :=
  match p, s with
  | EmptyString, _ => true
  | String a p', String b s' => bool_decide (a = b) && is_prefix p' s'
  | String _ _, EmptyString => false
  end.

Fixpoint is_substring (p s : string) : bool :=
  is_prefix p s ||
  match s with
  | EmptyString => false
  | String _ s' => is_substring p s'
  end.

(** [key in obj] for a string key: key membership for a dict, element
    membership for a list, substring test for a str. *)
Definition contains (obj : json) (key : string) : result bool :=
  match obj with
  | JObj o => Ok (bool_decide (is_Some (o !! key)))
  | JArr l => Ok (existsb (json_is_str key) l)
  | JStr s => Ok (is_substring key s)
  | _ => Raise TypeError
  end.

(** [value + k] and [value + x] on an object taken from a JSON document;
    [bool] is a subclass of [int]. *)
Definition as_number (v : json) : result number :=
  match v with
  | JNum n => Ok n
  | JBool b => Ok (PyInt (if b then 1 else 0))
  | _ => Raise TypeError
  end.

Definition py_add_int (v : json) (k : Z) : result number :=
  n ← as_number v; add_int n k.

Definition py_add_float (v : json) (x : Q) : result number :=
  n ← as_number v; add_float n x.

(** ** Aware UTC datetimes *)

Definition datetime := Z.

Definition dt_min : datetime := -62135596800000000.
Definition dt_max : datetime := 253402300799999999.

Definition dt_valid (dt : datetime) : Prop := dt_min <= dt <= dt_max.

(** [dt + delta] for a timedelta of [delta] microseconds. *)
Definition dt_add (dt : datetime) (delta : Z) : result datetime :=
  let r := dt + delta in
  if (dt_min <=? r) && (r <=? dt_max) then Ok r else Raise OverflowError.

(** [dt.timestamp()]: the difference to the epoch in microseconds divided,
    as a true division of ints, by 10^6. *)
Definition timestamp (dt : datetime) : Q := round_double (dt # 1000000).

(** [int(dt.timestamp() * 1000)] *)
Definition epoch_millis (dt : datetime) : Z :=
  Qtrunc (round_double (timestamp dt * 1000)).

(** [timedelta(minutes=5)] *)
Definition five_minutes : Z := 300000000.

Definition inspect {A} (a : A) : {b : A | a = b} := exist _ a eq_refl.

(** The loop of [query] that fills [timestamps]:
    [while current <= time_to: timestamps.append(...); current += ...] *)
Equations? timestamps_loop (time_to current : datetime) (timestamps : list Z)
  : result (list Z)
  by wf (Z.to_nat ((time_to - current) / five_minutes + 1)) lt :=
  timestamps_loop time_to current timestamps
    with inspect (current <=? time_to) := {
    | exist _ true Hle with inspect (dt_add current five_minutes) := {
        | exist _ (Ok next) Hnext =>
            timestamps_loop time_to next (timestamps ++ [epoch_millis current]);
        | exist _ (Raise e) _ => Raise e };
    | exist _ false _ => Ok timestamps }.
Proof.
  unfold dt_add in Hnext.
  destruct (_ && _); [|discriminate].
  injection Hnext as <-.
  apply Z.leb_le in Hle.
  unfold five_minutes.
  assert ((time_to - (current + 300000000)) / 300000000
          = (time_to - current) / 300000000 - 1) as ->.
  { replace (time_to - (current + 300000000))
      with ((time_to - current) + (-1) * 300000000) by lia.
    rewrite Z.div_add by lia. lia. }
  assert (0 <= (time_to - current) / 300000000)
    by (apply Z.div_pos; lia).
  lia.
Qed.

Definition generate_timestamps (time_from time_to : datetime) : result (list Z) :=
  timestamps_loop time_to time_from [].

(** ** The outside world *)

(** What [requests.get] can come back with: an exception of the HTTP client
    (connection failure, timeout, ...) or a response with its status and,
    when the body is a JSON document, the parsed body. *)
Inductive http_outcome : Type :=
  | HttpFailed (e : exn)
  | HttpResponse (status_code : Z) (body : option json).

(** A row of [SELECT timestamp, metric_value FROM metrics ...], with the
    column types of the table. *)
Record ts_row : Type := { row_timestamp : datetime; row_metric_value : Q }.

Inductive sql_value : Type :=
  | SqlNull
  | SqlNumber (q : Q)
  | SqlText (s : string)
  | SqlTimestamp (dt : datetime).

Inductive sql_param : Type :=
  | ParamText (s : string)
  | ParamTimestamp (dt : datetime).

(** What [cursor.execute] and [fetchall] produce; [conn_lost] tells whether
    the failure left the connection handle closed. *)
Inductive pg_outcome (row : Type) : Type :=
  | PgRows (rows : list row)
  | PgError (conn_lost : bool).
Arguments PgRows {row} rows.
Arguments PgError {row} conn_lost.

(** Aggregation responses of the search engine, typed by aggregation kind. *)
Record log_response : Type := {
  hits_total : Z;
  error_doc_count : Z;
  log_level_buckets : list (string * Z) }.

Record histogram_bucket : Type := {
  bucket_key : Z;
  bucket_avg : option Q }.

Record app_response : Type := {
  avg_response_time : option Q;
  request_count : Z;
  status_code_buckets : list (string * Z) }.

Inductive es_query : Type :=
  | LogLevelsQuery (time_field : string)
  | TimeSeriesQuery (metric_field : string) (start_time end_time : datetime)
  | ApplicationQuery.

Inductive event : Type :=
  | EvHttpGet (url : string) (params : list (string * string)) (timeout : Z)
  | EvPgConnect
  | EvPgExecute (conn : nat) (query : string) (params : list sql_param)
  | EvPgClose (conn : nat)
  | EvEsConstruct
  | EvEsPing
  | EvEsSearch (index : string) (body : es_query)
  | EvPrint (message : string).

(** Each oracle answers the call issued as the [n]-th event. *)
Record world : Type := {
  http_get : nat -> string -> list (string * string) -> http_outcome;
  pg_connect : nat -> option nat;
  pg_execute : nat -> nat -> string -> list sql_param -> pg_outcome (gmap string sql_value);
  pg_execute_ts : nat -> nat -> list sql_param -> pg_outcome ts_row;
  es_construct : nat -> bool;
  es_ping : nat -> result bool;
  es_search_logs : nat -> string -> string -> result log_response;
  es_search_histogram : nat -> string -> string -> datetime -> datetime
                        -> result (list histogram_bucket);
  es_search_app : nat -> string -> result app_response }.

(** ** Program state: the two module-level collectors and the I/O trace *)

Record pg_connection : Type := { conn_id : nat; closed : bool }.

Record PostgreSQLCollector : Type := { conn : option pg_connection }.

Record ElasticsearchCollector : Type := { es : option unit; connected : bool }.

Record state : Type := {
  trace : list event;
  pg_collector : PostgreSQLCollector;
  es_collector : ElasticsearchCollector }.

Definition log (ev : event) (st : state) : state :=
  {| trace := trace st ++ [ev];
     pg_collector := pg_collector st;
     es_collector := es_collector st |}.

Definition set_pg (pg : PostgreSQLCollector) (st : state) : state :=
  {| trace := trace st; pg_collector := pg; es_collector := es_collector st |}.

Definition set_es (c : ElasticsearchCollector) (st : state) : state :=
  {| trace := trace st; pg_collector := pg_collector st; es_collector := c |}.

Definition now (st : state) : nat := length (trace st).

(** ** APIDataCollector *)

Definition API_SOURCES (name : string) : string :=
  if bool_decide (name = "weather") then "https://api.open-meteo.com/v1/forecast"
  else if bool_decide (name = "crypto") then "https://api.coingecko.com/api/v3/simple/price"
  else "https://api.github.com/repos".

Record response : Type := { status_code : Z; json_body : option json }.

(** [requests.get(url, params=params, timeout=timeout)] *)
Definition requests_get (w : world) (url : string) (params : list (string * string))
    (timeout : Z) (st : state) : result response * state :=
  (match http_get w (now st) url params with
   | HttpFailed e => Raise e
   | HttpResponse code body => Ok {| status_code := code; json_body := body |}
   end,
   log (EvHttpGet url params timeout) st).

(** [resp.raise_for_status()] *)
Definition raise_for_status (resp : response) : result unit :=
  if (400 <=? status_code resp) && (status_code resp <? 600)
  then Raise HTTPError else Ok tt.

(** [resp.json()] *)
Definition resp_json (resp : response) : result json :=
  match json_body resp with
  | Some j => Ok j
  | None => Raise JSONDecodeError
  end.

Definition weather_params : list (string * string) :=
  [("latitude", "44.539051"); ("longitude", "18.47728");
   ("current", "temperature_2m,wind_speed_10m,relative_humidity_2m")].

(** The statements of a connector's [try] block that follow the GET. *)
Definition weather_of (r : result response) : result (gmap string json) :=
  resp ← r;
  _ ← raise_for_status resp;
  data ← resp_json resp;
  temperature ← getitem data "current" ≫= (λ c, getitem c "temperature_2m");
  wind_speed ← getitem data "current" ≫= (λ c, getitem c "wind_speed_10m");
  humidity ← getitem data "current" ≫= (λ c, getitem c "relative_humidity_2m");
  Ok (<["temperature" := temperature]>
        (<["wind_speed" := wind_speed]>
           (<["humidity" := humidity]> (∅ : gmap string json)))).

Definition fetch_weather_data (w : world) (st : state) : gmap string json * state :=
  let '(r, st1) := requests_get w (API_SOURCES "weather") weather_params 10 st in
  try_except
    (d ← weather_of r; Ok (d, st1))
    (λ e, (∅, log (EvPrint "Weather API error") st1)).

Definition default_coins : list string := ["bitcoin"; "ethereum"].

Fixpoint join (sep : string) (l : list string) : string :=
  match l with
  | [] => ""
  | [s] => s
  | s :: l' => s +:+ sep +:+ join sep l'
  end.

(** [{coin: data[coin]['usd'] for coin in coins if coin in data}] *)
Fixpoint usd_prices (data : json) (coins : list string) (acc : gmap string json)
  : result (gmap string json) :=
  match coins with
  | [] => Ok acc
  | coin :: rest =>
      present ← contains data coin;
      if (present : bool) then
        price ← getitem data coin ≫= (λ c, getitem c "usd");
        usd_prices data rest (<[coin := price]> acc)
      else usd_prices data rest acc
  end.

Definition crypto_of (coins : list string) (r : result response)
  : result (gmap string json) :=
  resp ← r;
  _ ← raise_for_status resp;
  data ← resp_json resp;
  usd_prices data coins ∅.

Definition crypto_params (coins : list string) : list (string * string) :=
  [("ids", join "," coins); ("vs_currencies", "usd")].

Definition fetch_crypto_prices (w : world) (coins : list string) (st : state)
  : gmap string json * state :=
  let '(r, st1) := requests_get w (API_SOURCES "crypto") (crypto_params coins) 10 st in
  try_except
    (d ← crypto_of coins r; Ok (d, st1))
    (λ e, (∅, log (EvPrint "Crypto API error") st1)).

Definition default_repo : string := "torvalds/linux".

Definition github_of (r : result response) : result (gmap string json) :=
  resp ← r;
  _ ← raise_for_status resp;
  data ← resp_json resp;
  stars ← getitem data "stargazers_count";
  forks ← getitem data "forks_count";
  open_issues ← getitem data "open_issues_count";
  watchers ← getitem data "watchers_count";
  Ok (<["stars" := stars]>
        (<["forks" := forks]>
           (<["open_issues" := open_issues]>
              (<["watchers" := watchers]> (∅ : gmap string json))))).

Definition fetch_github_stats (w : world) (repo : string) (st : state)
  : gmap string json * state :=
  let '(r, st1) := requests_get w (API_SOURCES "github" +:+ "/" +:+ repo) [] 10 st in
  try_except
    (d ← github_of r; Ok (d, st1))
    (λ e, (∅, log (EvPrint "GitHub API error") st1)).

(** ** PostgreSQLCollector *)

Definition set_conn (c : option pg_connection) (st : state) : state :=
  set_pg {| conn := c |} st.

(** [self.connect()] *)
Definition connect (w : world) (st : state) : bool * state :=
  let st1 := log EvPgConnect st in
  match pg_connect w (now st) with
  | Some id => (true, set_conn (Some {| conn_id := id; closed := false |}) st1)
  | None => (false, log (EvPrint "PostgreSQL connection error") st1)
  end.

(** [self.disconnect()] *)
Definition disconnect (st : state) : state :=
  match conn (pg_collector st) with
  | Some c =>
      set_conn (Some {| conn_id := conn_id c; closed := true |})
               (log (EvPgClose (conn_id c)) st)
  | None => st
  end.

(** [not self.conn or self.conn.closed] *)
Definition handle_unusable (pg : PostgreSQLCollector) : bool :=
  match conn pg with
  | None => true
  | Some c => closed c
  end.

(** [if not self.conn or self.conn.closed: self.connect()] *)
Definition ensure_connection (w : world) (st : state) : state :=
  if handle_unusable (pg_collector st) then snd (connect w st) else st.

(** [self.conn.cursor(...)]: attribute access on [None] and a cursor on a
    closed connection both raise. *)
Definition open_cursor (pg : PostgreSQLCollector) : result pg_connection :=
  match conn pg with
  | None => Raise AttributeError
  | Some c => if closed c then Raise DatabaseError else Ok c
  end.

Definition mark_lost (lost : bool) (c : pg_connection) (st : state) : state :=
  if lost then set_conn (Some {| conn_id := conn_id c; closed := true |}) st else st.

Definition default_metrics_sql : string :=
  "SELECT metric_name, metric_value, timestamp FROM metrics WHERE timestamp >= NOW() - INTERVAL '1 hour' ORDER BY timestamp DESC".

Definition time_series_sql : string :=
  "SELECT timestamp, metric_value FROM metrics WHERE metric_name = %s AND timestamp >= %s AND timestamp <= %s ORDER BY timestamp ASC".

(** The body shared by the two read operations: connect if needed, open a
    cursor, execute, fetch; every exception ends in the handler. *)
Definition run_query {row : Type} (w : world) (sql : string) (params : list sql_param)
    (exec : nat -> nat -> pg_outcome row) (message : string) (st : state)
  : list row * state :=
  let st1 := ensure_connection w st in
  match open_cursor (pg_collector st1) with
  | Raise _ => ([], log (EvPrint message) st1)
  | Ok c =>
      let st2 := log (EvPgExecute (conn_id c) sql params) st1 in
      match exec (now st1) (conn_id c) with
      | PgRows rows => (rows, st2)
      | PgError lost => ([], log (EvPrint message) (mark_lost lost c st2))
      end
  end.

Definition fetch_metrics (w : world) (query : option string) (st : state)
  : list (gmap string sql_value) * state :=
  let sql := match query with
             | None | Some "" => default_metrics_sql
             | Some q => q
             end in
  run_query w sql [] (λ n c, pg_execute w n c sql []) "PostgreSQL query error" st.

(** [PostgreSQLCollector.fetch_time_series] *)
Definition pg_fetch_time_series (w : world) (metric_name : string)
    (start_time end_time : datetime) (st : state) : list ts_row * state :=
  let params := [ParamText metric_name; ParamTimestamp start_time;
                 ParamTimestamp end_time] in
  run_query w time_series_sql params (λ n c, pg_execute_ts w n c params)
            "PostgreSQL time series error" st.

(** ** ElasticsearchCollector *)

(** [ElasticsearchCollector.__init__] *)
Definition es_init (w : world) (st : state) : state :=
  let st1 := log EvEsConstruct st in
  if es_construct w (now st) then
    let st2 := log EvEsPing st1 in
    match es_ping w (now st1) with
    | Ok b => set_es {| es := Some tt; connected := b |} st2
    | Raise _ =>
        set_es {| es := None; connected := false |}
               (log (EvPrint "Elasticsearch connection error") st2)
    end
  else
    set_es {| es := None; connected := false |}
           (log (EvPrint "Elasticsearch connection error") st1).

(** [self.es.search(...)]: the client attribute may be [None]. *)
Definition es_search {A : Type} (index : string) (body : es_query)
    (oracle : nat -> result A) (st : state) : result A * state :=
  match es (es_collector st) with
  | None => (Raise AttributeError, st)
  | Some _ => (oracle (now st), log (EvEsSearch index body) st)
  end.

Definition lower_ascii (c : ascii) : ascii :=
  let n := nat_of_ascii c in
  if ((65 <=? n) && (n <=? 90))%nat then ascii_of_nat (n + 32) else c.

Fixpoint lower (s : string) : string :=
  match s with
  | EmptyString => EmptyString
  | String c s' => String (lower_ascii c) (lower s')
  end.

(** [x or 0] on an aggregate value, a float or [None]. *)
Definition or_zero (v : option Q) : number :=
  match v with
  | None => PyInt 0
  | Some q => if Qeq_bool q 0 then PyInt 0 else PyFloat q
  end.

(** [ElasticsearchCollector.fetch_log_metrics] *)
Definition es_fetch_log_metrics (w : world) (index time_field : string) (st : state)
  : gmap string Z * state :=
  if negb (connected (es_collector st)) then (∅, st) else
  let '(r, st1) := es_search index (LogLevelsQuery time_field)
                     (λ n, es_search_logs w n index time_field) st in
  match r with
  | Ok res =>
      let metrics : gmap string Z :=
        <["error_count" := error_doc_count res]>
          (<["total_logs" := hits_total res]> ∅) in
      (fold_left (λ m b, <["logs_" +:+ lower (fst b) := snd b]> m)
                 (log_level_buckets res) metrics, st1)
  | Raise _ => (∅, log (EvPrint "Elasticsearch query error") st1)
  end.

Record es_row : Type := { es_timestamp : Z; es_value : number }.

(** [ElasticsearchCollector.fetch_time_series] *)
Definition es_fetch_time_series (w : world) (index metric_field : string)
    (start_time end_time : datetime) (st : state) : list es_row * state :=
  if negb (connected (es_collector st)) then ([], st) else
  let '(r, st1) := es_search index (TimeSeriesQuery metric_field start_time end_time)
                     (λ n, es_search_histogram w n index metric_field start_time end_time)
                     st in
  match r with
  | Ok buckets =>
      (map (λ b, {| es_timestamp := bucket_key b;
                    es_value := or_zero (bucket_avg b) |}) buckets, st1)
  | Raise _ => ([], log (EvPrint "Elasticsearch time series error") st1)
  end.

Inductive metric_value : Type :=
  | MetricInt (z : Z)
  | MetricNumber (n : number).

(** [ElasticsearchCollector.fetch_application_metrics] *)
Definition es_fetch_application_metrics (w : world) (index : string) (st : state)
  : gmap string metric_value * state :=
  if negb (connected (es_collector st)) then (∅, st) else
  let '(r, st1) := es_search index ApplicationQuery
                     (λ n, es_search_app w n index) st in
  match r with
  | Ok res =>
      let metrics : gmap string metric_value :=
        <["request_count" := MetricInt (request_count res)]>
          (<["avg_response_time" := MetricNumber (or_zero (avg_response_time res))]> ∅) in
      (fold_left (λ m b, <["status_" +:+ fst b := MetricInt (snd b)]> m)
                 (status_code_buckets res) metrics, st1)
  | Raise _ => (∅, log (EvPrint "Elasticsearch application metrics error") st1)
  end.

(** ** The /query endpoint *)

Record query_request : Type := {
  range_from : datetime;
  range_to : datetime;
  targets : list string }.

Record series : Type := {
  target : string;
  datapoints : list (number * Z) }.

(** [s.split(sep)] for a one-character separator. *)
Fixpoint split_on (sep : ascii) (s : string) : list string :=
  match s with
  | EmptyString => [EmptyString]
  | String c s' =>
      if bool_decide (c = sep) then EmptyString :: split_on sep s'
      else match split_on sep s' with
           | seg :: rest => String c seg :: rest
           | [] => [String c EmptyString]
           end
  end.

(** [metric.split('.')[-1]] *)
Definition last_segment (metric : string) : string :=
  List.last (split_on "." metric) EmptyString.

(** [for ts in timestamps: datapoints.append([jitter value ts, ts])] *)
Fixpoint replicate_value (jitter : json -> Z -> result number) (value : json)
    (timestamps : list Z) : result (list (number * Z)) :=
  match timestamps with
  | [] => Ok []
  | ts :: rest =>
      v ← jitter value ts;
      dps ← replicate_value jitter value rest;
      Ok ((v, ts) :: dps)
  end.

Definition weather_jitter (value : json) (ts : Z) : result number :=
  py_add_float value
    (round_double (inject_Z (py_hash_int ts mod 10 - 5) * float_0_1)).

Definition crypto_jitter (value : json) (ts : Z) : result number :=
  py_add_int value (py_hash_int ts mod 100 - 50).

Definition github_jitter (value : json) (ts : Z) : result number :=
  py_add_int value (py_hash_int ts mod 20 - 10).

(** [if name in data: value = data[name]; for ts in timestamps: ...] *)
Definition api_datapoints (jitter : json -> Z -> result number)
    (data : gmap string json) (name : string) (timestamps : list Z)
  : result (list (number * Z)) :=
  match data !! name with
  | Some value => replicate_value jitter value timestamps
  | None => Ok []
  end.

Definition pg_datapoint (row : ts_row) : number * Z :=
  (PyFloat (Qred (round_double (row_metric_value row))),
   epoch_millis (row_timestamp row)).

Fixpoint es_datapoints (rows : list es_row) : result (list (number * Z)) :=
  match rows with
  | [] => Ok []
  | row :: rest =>
      v ← float_of_number (es_value row);
      dps ← es_datapoints rest;
      Ok ((PyFloat v, es_timestamp row) :: dps)
  end.

(** The body of [for target in req['targets']], up to the entry appended to
    [results]; an exception leaves the state as it was when raised. *)
Definition query_target (w : world) (time_from time_to : datetime)
    (timestamps : list Z) (metric : string) (st : state)
  : result series * state :=
  let entry dps := {| target := metric; datapoints := dps |} in
  if is_prefix "api.weather." metric then
    let '(weather_data, st1) := fetch_weather_data w st in
    (entry <$> api_datapoints weather_jitter weather_data (last_segment metric)
                 timestamps, st1)
  else if is_prefix "api.crypto." metric then
    let '(crypto_data, st1) := fetch_crypto_prices w default_coins st in
    (entry <$> api_datapoints crypto_jitter crypto_data (last_segment metric)
                 timestamps, st1)
  else if is_prefix "api.github." metric then
    let '(github_data, st1) := fetch_github_stats w default_repo st in
    (entry <$> api_datapoints github_jitter github_data (last_segment metric)
                 timestamps, st1)
  else if is_prefix "postgres." metric then
    let '(pg_data, st1) :=
      pg_fetch_time_series w (last_segment metric) time_from time_to st in
    (Ok (entry (map pg_datapoint pg_data)), st1)
  else if is_prefix "elastic." metric then
    let '(es_data, st1) :=
      es_fetch_time_series w "metrics-*" (last_segment metric) time_from time_to st in
    (entry <$> es_datapoints es_data, st1)
  else
    (Ok (entry []), st).

Fixpoint query_targets (w : world) (time_from time_to : datetime)
    (timestamps : list Z) (metrics : list string) (results : list series)
    (st : state) : result (list series) * state :=
  match metrics with
  | [] => (Ok results, st)
  | metric :: rest =>
      match query_target w time_from time_to timestamps metric st with
      | (Ok entry, st1) =>
          query_targets w time_from time_to timestamps rest (results ++ [entry]) st1
      | (Raise e, st1) => (Raise e, st1)
      end
  end.

(** The handler of [POST /query]: the response body, or the exception that
    reaches the web framework, and the state left behind. *)
Definition query (w : world) (req : query_request) (st : state)
  : result (list series) * state :=
  match generate_timestamps (range_from req) (range_to req) with
  | Ok timestamps =>
      query_targets w (range_from req) (range_to req) timestamps (targets req) [] st
  | Raise e => (Raise e, st)
  end.

(** ** The other endpoints *)

Record health_status : Type := {
  postgresql : bool;
  elasticsearch : bool;
  apis : bool }.

(** [GET /] *)
Definition health (w : world) (st : state) : health_status * state :=
  let '(pg_ok, st1) := connect w st in
  ({| postgresql := pg_ok;
      elasticsearch := connected (es_collector st1);
      apis := true |},
   disconnect st1).

(** [POST /search] *)
Definition search : list string :=
  ["api.weather.temperature"; "api.weather.wind_speed"; "api.weather.humidity";
   "api.crypto.bitcoin"; "api.crypto.ethereum";
   "api.github.stars"; "api.github.forks"; "api.github.open_issues";
   "postgres.cpu_usage"; "postgres.memory_usage"; "postgres.disk_io";
   "postgres.connections";
   "elastic.total_logs"; "elastic.error_count"; "elastic.avg_response_time";
   "elastic.request_count"].

(** [POST /annotations] *)
Definition annotations : list json := [].

(** Everything the process can do once the module is loaded: serve a
    request, or call a collector method (as [collect_and_display] does). *)
Inductive operation : Type :=
  | ServeHealth
  | ServeSearch
  | ServeQuery (req : query_request)
  | ServeAnnotations
  | CallFetchWeather
  | CallFetchCrypto (coins : list string)
  | CallFetchGithub (repo : string)
  | CallPgConnect
  | CallPgDisconnect
  | CallPgFetchMetrics (sql : option string)
  | CallPgFetchTimeSeries (name : string) (start_time end_time : datetime)
  | CallEsFetchLogMetrics (index time_field : string)
  | CallEsFetchTimeSeries (index field : string) (start_time end_time : datetime)
  | CallEsFetchApplicationMetrics (index : string).

Definition run (w : world) (op : operation) (st : state) : state :=
  match op with
  | ServeHealth => snd (health w st)
  | ServeSearch => st
  | ServeQuery req => snd (query w req st)
  | ServeAnnotations => st
  | CallFetchWeather => snd (fetch_weather_data w st)
  | CallFetchCrypto coins => snd (fetch_crypto_prices w coins st)
  | CallFetchGithub repo => snd (fetch_github_stats w repo st)
  | CallPgConnect => snd (connect w st)
  | CallPgDisconnect => disconnect st
  | CallPgFetchMetrics sql => snd (fetch_metrics w sql st)
  | CallPgFetchTimeSeries name a b => snd (pg_fetch_time_series w name a b st)
  | CallEsFetchLogMetrics index field => snd (es_fetch_log_metrics w index field st)
  | CallEsFetchTimeSeries index field a b =>
      snd (es_fetch_time_series w index field a b st)
  | CallEsFetchApplicationMetrics index =>
      snd (es_fetch_application_metrics w index st)
  end.

Definition run_all (w : world) (ops : list operation) (st : state) : state :=
  fold_left (λ s op, run w op s) ops st.

(** ** Start-up and sample worlds *)

(** Module level: [pg_collector = PostgreSQLCollector(...)] and
    [es_collector = ElasticsearchCollector(...)]. *)
Definition fresh_state : state :=
  {| trace := [];
     pg_collector := {| conn := None |};
     es_collector := {| es := None; connected := false |} |}.

Definition startup (w : world) : state := es_init w fresh_state.

(** A world in which nothing is reachable. *)
Definition offline_world : world :=
  {| http_get := λ _ _ _, HttpFailed ConnectionError;
     pg_connect := λ _, None;
     pg_execute := λ _ _ _ _, PgError true;
     pg_execute_ts := λ _ _ _, PgError true;
     es_construct := λ _, true;
     es_ping := λ _, Ok false;
     es_search_logs := λ _ _ _, Raise TransportError;
     es_search_histogram := λ _ _ _ _ _, Raise TransportError;
     es_search_app := λ _ _, Raise TransportError |}.

(** A world whose HTTP endpoints all answer 200 with the given document. *)
Definition http_world (body : json) : world :=
  {| http_get := λ _ _ _, HttpResponse 200 (Some body);
     pg_connect := pg_connect offline_world;
     pg_execute := pg_execute offline_world;
     pg_execute_ts := pg_execute_ts offline_world;
     es_construct := es_construct offline_world;
     es_ping := es_ping offline_world;
     es_search_logs := es_search_logs offline_world;
     es_search_histogram := es_search_histogram offline_world;
     es_search_app := es_search_app offline_world |}.

Definition usd (price : Z) : json :=
  JObj (<["usd" := JNum (PyInt price)]> ∅).

(** [{"bitcoin": {"usd": 42000}, "ethereum": {"usd": 2200}}] *)
Definition both_coins : json :=
  JObj (<["bitcoin" := usd 42000]> (<["ethereum" := usd 2200]> ∅)).

(** [{"bitcoin": {"usd": 42000}}] *)
Definition bitcoin_only : json :=
  JObj (<["bitcoin" := usd 42000]> ∅).

(** 2024-01-01T00:00:00Z and 2024-01-01T00:10:00Z *)
Definition jan1_midnight : datetime := 1704067200000000.
Definition jan1_0010 : datetime := 1704067800000000.

(** ** The ticket filer, [jsm-api-test.py] *)

Module Jsm.

(** [os.getenv] of the three variables the script reads. *)
Record environ : Type := {
  JSM_SITE : option string;
  API_TOKEN : option string;
  PROJECT_KEY : option string }.

Record HTTPBasicAuth : Type := {
  username : string;
  password : option string }.

Record post_request : Type := {
  url : string;
  data : json;
  headers : list (string * string);
  auth : HTTPBasicAuth }.

Record post_response : Type := {
  status_code : Z;
  text : string;
  json_body : option json }.

(** One argument of a [print] call. *)
Inductive printed : Type :=
  | PStr (s : string)
  | PInt (z : Z)
  | PJson (j : json).

(** [f"{x}"] of an optional string. *)
Definition format (x : option string) : string :=
  match x with
  | Some s => s
  | None => "None"
  end.

Definition json_of (x : option string) : json :=
  match x with
  | Some s => JStr s
  | None => JNull
  end.

Definition obj (fields : list (string * json)) : json :=
  JObj (list_to_map fields).

(** The document given to [json.dumps]. *)
Definition payload (env : environ) : json :=
  obj [("fields", obj
    [("project", obj [("key", json_of (PROJECT_KEY env))]);
     ("summary", JStr "Test Incident from API");
     ("description", obj
        [("type", JStr "doc");
         ("version", JNum (PyInt 1));
         ("content", JArr [obj
            [("type", JStr "paragraph");
             ("content", JArr [obj
                [("type", JStr "text");
                 ("text", JStr "This incident is created via API for testing.")]])]])]);
     ("issuetype", obj [("id", JStr "10049")])])].

(** Lines 12 to 20: [EMAIL] is bound to the argument, then rebound. *)
Definition credentials (args_email : string) (env : environ) : HTTPBasicAuth :=
  let EMAIL := args_email in
  let EMAIL := "almir.alitovic@logicpulse.ba" in
  {| username := EMAIL; password := API_TOKEN env |}.

Definition build_request (args_email : string) (env : environ) : post_request :=
  {| url := format (JSM_SITE env) +:+ "/rest/api/3/issue";
     data := payload env;
     headers := [("Accept", "application/json");
                 ("Content-Type", "application/json")];
     auth := credentials args_email env |}.

(** The script from the parsed [--email] argument on: the lines printed
    when it runs to its end, or the exception that ends it. *)
Definition main (args_email : string) (env : environ)
    (post : post_request -> result post_response) : result (list (list printed)) :=
  response ← post (build_request args_email env);
  if status_code response =? 201 then
    body ← (match json_body response with
            | Some j => Ok j
            | None => Raise JSONDecodeError
            end);
    key ← getitem body "key";
    Ok [[PStr "Incident created successfully:"; PJson key]]
  else
    Ok [[PStr "Error:"; PInt (status_code response); PStr (text response)]].

End Jsm.

(** * Vocabulary of the statements *)

Ltac break_match :=
  match goal with
  | |- context [match ?x with _ => _ end] => destruct x eqn:?
  | |- context [if ?b then _ else _] => destruct b eqn:?
  end.

Ltac frame := intros; repeat (simpl; try break_match); simpl; try reflexivity.

(** The liveness check of [__init__] fails: the client cannot be built, or
    [ping] answers [False], or [ping] raises. *)
Definition liveness_check_fails (w : world) (st : state) : Prop :=
  es_construct w (now st) = false
  \/ es_ping w (now (log EvEsConstruct st)) = Ok false
  \/ exists e, es_ping w (now (log EvEsConstruct st)) = Raise e.

Definition sample_request : query_request :=
  {| range_from := jan1_midnight; range_to := jan1_0010;
     targets := ["elastic.error_count"; "postgres.cpu_usage"] |}.

Definition metrics_sql (query : option string) : string :=
  match query with
  | None | Some "" => default_metrics_sql
  | Some q => q
  end.

Definition time_series_params (name : string) (a b : datetime) : list sql_param :=
  [ParamText name; ParamTimestamp a; ParamTimestamp b].

(** A world whose database accepts connections and fails every statement. *)
Definition failing_db_world : world :=
  {| http_get := http_get offline_world;
     pg_connect := λ _, Some 7%nat;
     pg_execute := λ _ _ _ _, PgError false;
     pg_execute_ts := λ _ _ _, PgError false;
     es_construct := es_construct offline_world;
     es_ping := es_ping offline_world;
     es_search_logs := es_search_logs offline_world;
     es_search_histogram := es_search_histogram offline_world;
     es_search_app := es_search_app offline_world |}.

Definition sample_environ : Jsm.environ :=
  {| Jsm.JSM_SITE := Some "https://example.atlassian.net";
     Jsm.API_TOKEN := Some "token";
     Jsm.PROJECT_KEY := Some "PROJ" |}.

(** The tracker answers 201 with [{"key": "PROJ-123"}]. *)
Definition created_PROJ_123 (_ : Jsm.post_request) : result Jsm.post_response :=
  Ok {| Jsm.status_code := 201;
        Jsm.text := "PROJ-123 created";
        Jsm.json_body := Some (JObj (<["key" := JStr "PROJ-123"]> ∅)) |}.

(** The tracker answers 401. *)
Definition unauthorized (_ : Jsm.post_request) : result Jsm.post_response :=
  Ok {| Jsm.status_code := 401;
        Jsm.text := "Unauthorized";
        Jsm.json_body := None |}.

Definition raises {A} (r : result A) : Prop := exists e, r = Raise e.

(** The GET calls of a trace, in order. *)
Definition http_calls (tr : list event)
  : list (string * list (string * string) * Z) :=
  flat_map (λ ev, match ev with
                  | EvHttpGet url params timeout => [(url, params, timeout)]
                  | _ => []
                  end) tr.

(** The response cannot be used at all: the client raised (connection
    failure, timeout), the status is an error status, or the body is not a
    JSON document. *)
Definition unusable (o : http_outcome) : Prop :=
  match o with
  | HttpFailed _ => True
  | HttpResponse code body => 400 <= code < 600 \/ body = None
  end.

Definition delivers (o : http_outcome) (data : json) : Prop :=
  exists code, o = HttpResponse code (Some data) /\ ~ 400 <= code < 600.

Definition weather_fields : list string :=
  ["temperature_2m"; "wind_speed_10m"; "relative_humidity_2m"].

Definition github_fields : list string :=
  ["stargazers_count"; "forks_count"; "open_issues_count"; "watchers_count"].

Definition outcome_response (o : http_outcome) : result response :=
  match o with
  | HttpFailed e => Raise e
  | HttpResponse code body => Ok {| status_code := code; json_body := body |}
  end.

(** [{"bitcoin": {"usd": 42000}, "ethereum": {}}] *)
Definition ethereum_without_usd : json :=
  JObj (<["bitcoin" := usd 42000]> (<["ethereum" := JObj ∅]> ∅)).

(** A world whose HTTP endpoints all time out. *)
Definition timeout_world : world :=
  {| http_get := λ _ _ _, HttpFailed Timeout;
     pg_connect := pg_connect offline_world;
     pg_execute := pg_execute offline_world;
     pg_execute_ts := pg_execute_ts offline_world;
     es_construct := es_construct offline_world;
     es_ping := es_ping offline_world;
     es_search_logs := es_search_logs offline_world;
     es_search_histogram := es_search_histogram offline_world;
     es_search_app := es_search_app offline_world |}.

(** The connector family a metric name is dispatched to. *)
Inductive family : Type :=
  | Weather | Crypto | Github | Postgres | Elastic | Unmatched.

Definition family_of (metric : string) : family :=
  if is_prefix "api.weather." metric then Weather
  else if is_prefix "api.crypto." metric then Crypto
  else if is_prefix "api.github." metric then Github
  else if is_prefix "postgres." metric then Postgres
  else if is_prefix "elastic." metric then Elastic
  else Unmatched.

Definition entry_of (metric : string) (dps : list (number * Z)) : series :=
  {| target := metric; datapoints := dps |}.

(** An entry of the response is what the loop body produced for its target,
    in some state. *)
Definition produced (w : world) (a b : datetime) (ts : list Z)
    (metric : string) (e : series) : Prop :=
  exists st0, fst (query_target w a b ts metric st0) = Ok e.

Definition weather_metrics : list string := ["temperature"; "wind_speed"; "humidity"].
Definition github_metrics : list string := ["stars"; "forks"; "open_issues"; "watchers"].

(** The target is dispatched to an API connector and its last dot-segment
    is none of the names that connector can return. *)
Definition outside_defaults (metric : string) : Prop :=
  (is_prefix "api.crypto." metric = true /\ ~ In (last_segment metric) default_coins)
  \/ (is_prefix "api.weather." metric = true
      /\ ~ In (last_segment metric) weather_metrics)
  \/ (is_prefix "api.github." metric = true
      /\ ~ In (last_segment metric) github_metrics).

Definition family_prefixes : list string :=
  ["api.weather."; "api.crypto."; "api.github."; "postgres."; "elastic."].

Definition matches_no_family (metric : string) : Prop :=
  Forall (λ p, is_prefix p metric = false) family_prefixes.


(** Every value the API connectors return is a number, and one that
    converts to a float where the gateway adds a float to it. *)
Definition numeric_upstream (w : world) : Prop :=
  forall (st : state) (name : string) (v : json),
    (fst (fetch_weather_data w st) !! name = Some v ->
       exists n f, v = JNum n /\ float_of_number n = Ok f)
    /\ (fst (fetch_crypto_prices w default_coins st) !! name = Some v ->
          exists n, v = JNum n)
    /\ (fst (fetch_github_stats w default_repo st) !! name = Some v ->
          exists n, v = JNum n).

(** 9999-12-31T23:59:00Z and 9999-12-31T23:59:30Z *)
Definition last_minute : datetime := 253402300740000000.
Definition last_half_minute : datetime := 253402300770000000.

(** How often the loop of [query] runs from [a] up to [b]. *)
Definition steps_between (a b : datetime) : nat :=
  if a <=? b then S (Z.to_nat ((b - a) / five_minutes)) else 0%nat.

(** [a], [a] + 5 min, [a] + 10 min, ...: [n] instants. *)
Definition grid_from (a : datetime) (n : nat) : list datetime :=
  map (λ k, a + Z.of_nat k * five_minutes) (seq 0 n).

(** The instants from [a] in steps of five minutes that are not after [b]. *)
Definition grid (a b : datetime) : list datetime := grid_from a (steps_between a b).

(** What the connector of the target's family returned for the target's
    last segment, if the target goes to an API connector at all. *)
Definition connector_value (w : world) (metric : string) (st : state) : option json :=
  match family_of metric with
  | Weather => fst (fetch_weather_data w st) !! last_segment metric
  | Crypto => fst (fetch_crypto_prices w default_coins st) !! last_segment metric
  | Github => fst (fetch_github_stats w default_repo st) !! last_segment metric
  | _ => None
  end.

Definition bitcoin_request : query_request :=
  {| range_from := jan1_midnight; range_to := jan1_0010;
     targets := ["api.crypto.bitcoin"] |}.

(** * More of the collectors *)

(** Python [==] on two values of a row. *)
Definition sql_eqb (a b : sql_value) : bool :=
  match a, b with
  | SqlNull, SqlNull => true
  | SqlNumber p, SqlNumber q => Qeq_bool p q
  | SqlText s, SqlText t => bool_decide (s = t)
  | SqlTimestamp x, SqlTimestamp y => x =? y
  | _, _ => false
  end.

(** A dict keyed by row values, in insertion order. [d[k] = v]: an equal key
    keeps its place and gets the new value. *)
Fixpoint dict_set {V : Type} (k : sql_value) (v : V) (d : list (sql_value * V))
  : list (sql_value * V) :=
  match d with
  | [] => [(k, v)]
  | (k', v') :: d' =>
      if sql_eqb k' k then (k', v) :: d' else (k', v') :: dict_set k v d'
  end.

(** [d.get(k)] *)
Fixpoint dict_get {V : Type} (k : sql_value) (d : list (sql_value * V)) : option V :=
  match d with
  | [] => None
  | (k', v') :: d' => if sql_eqb k' k then Some v' else dict_get k d'
  end.

Definition aggregated_sql : string :=
  "SELECT metric_name, AVG(metric_value) as avg_value, MAX(metric_value) as max_value, MIN(metric_value) as min_value, COUNT(*) as count FROM metrics WHERE timestamp >= NOW() - INTERVAL '24 hours' GROUP BY metric_name".

(** [{row['metric_name']: row for row in results}] *)
Fixpoint by_metric_name (results : list (gmap string sql_value))
    (acc : list (sql_value * gmap string sql_value))
  : result (list (sql_value * gmap string sql_value)) :=
  match results with
  | [] => Ok acc
  | row :: rest =>
      match row !! "metric_name" with
      | Some name => by_metric_name rest (dict_set name row acc)
      | None => Raise KeyError
      end
  end.

(** [PostgreSQLCollector.fetch_aggregated_metrics] *)
Definition fetch_aggregated_metrics (w : world) (st : state)
  : list (sql_value * gmap string sql_value) * state :=
  let '(results, st1) := fetch_metrics w (Some aggregated_sql) st in
  try_except
    (d ← by_metric_name results []; Ok (d, st1))
    (λ e, ([], log (EvPrint "PostgreSQL aggregation error") st1)).

(** * Vocabulary of the further statements *)

(** The datetime has no fraction of a second. *)
Definition whole_second (dt : datetime) : Prop := dt mod 1000000 = 0.

(** The target is dispatched to one of the three API connectors. *)
Definition api_target (metric : string) : bool :=
  match family_of metric with
  | Weather | Crypto | Github => true
  | _ => false
  end.

Definition postgres_target (metric : string) : bool :=
  match family_of metric with
  | Postgres => true
  | _ => false
  end.

(** The last row of [rows] whose metric name equals [k]. *)
Definition last_named (k : sql_value) (rows : list (gmap string sql_value))
  : option (gmap string sql_value) :=
  find (λ row, match row !! "metric_name" with
               | Some name => sql_eqb name k
               | None => false
               end) (rev rows).

Definition has_dot (s : string) : bool := existsb (λ c, bool_decide (c = "."%char)) (list_ascii_of_string s).

(** What the three jitter expressions give when [hash(ts)] is a multiple of
    100: the value minus 0.5, minus 50, minus 10. *)
Definition constant_offset (f : family) (v : json) : result number :=
  match f with
  | Weather => py_add_float v (round_double (inject_Z (-5) * float_0_1))
  | Crypto => py_add_int v (-50)
  | Github => py_add_int v (-10)
  | _ => Raise TypeError
  end.

(** The largest offset below zero and the number of offsets of the integer
    jitter of a family. *)
Definition jitter_span (f : family) : Z :=
  match f with
  | Crypto => 50
  | Github => 10
  | _ => 0
  end.

(** [data[coin]['usd']] when both subscripts succeed. *)
Definition price_of (obj : gmap string json) (coin : string) : option json :=
  match obj !! coin with
  | Some c => match getitem c "usd" with
              | Ok v => Some v
              | Raise _ => None
              end
  | None => None
  end.

(** The float a bucket contributes: its average, 0 when there is none. *)
Definition coalesced (b : histogram_bucket) : Q :=
  match bucket_avg b with
  | Some q => if Qeq_bool q 0 then 0%Q else q
  | None => 0%Q
  end.

(** The GET a target causes, if it goes to an API connector. *)
Definition get_of_target (metric : string)
  : list (string * list (string * string) * Z) :=
  match family_of metric with
  | Weather => [(API_SOURCES "weather", weather_params, 10)]
  | Crypto => [(API_SOURCES "crypto", crypto_params default_coins, 10)]
  | Github => [(API_SOURCES "github" +:+ "/" +:+ default_repo, [], 10)]
  | _ => []
  end.

(** The target can be answered with datapoints: it goes to a connector, and
    for an API connector its last segment is a name the connector returns. *)
Definition answerable (metric : string) : bool :=
  match family_of metric with
  | Weather => bool_decide (last_segment metric ∈ weather_metrics)
  | Crypto => bool_decide (last_segment metric ∈ default_coins)
  | Github => bool_decide (last_segment metric ∈ github_metrics)
  | Postgres | Elastic => true
  | Unmatched => false
  end.

(** The database events of a trace, in order. *)
Definition db_events (tr : list event) : list event :=
  flat_map (λ ev, match ev with
                  | EvPgConnect | EvPgExecute _ _ _ | EvPgClose _ => [ev]
                  | _ => []
                  end) tr.

(** A world whose database accepts connections and answers the time-series
    statement with the given rows and any other statement with [rows']. *)
Definition db_world (rows : list ts_row) (rows' : list (gmap string sql_value)) : world :=
  {| http_get := http_get offline_world;
     pg_connect := λ n, Some n;
     pg_execute := λ _ _ _ _, PgRows rows';
     pg_execute_ts := λ _ _ _, PgRows rows;
     es_construct := es_construct offline_world;
     es_ping := es_ping offline_world;
     es_search_logs := es_search_logs offline_world;
     es_search_histogram := es_search_histogram offline_world;
     es_search_app := es_search_app offline_world |}.

(** A world whose search engine is up and answers with the given data. *)
Definition es_world (logs : log_response) (buckets : list histogram_bucket)
    (app : app_response) : world :=
  {| http_get := http_get offline_world;
     pg_connect := pg_connect offline_world;
     pg_execute := pg_execute offline_world;
     pg_execute_ts := pg_execute_ts offline_world;
     es_construct := λ _, true;
     es_ping := λ _, Ok true;
     es_search_logs := λ _ _ _, Ok logs;
     es_search_histogram := λ _ _ _ _ _, Ok buckets;
     es_search_app := λ _ _, Ok app |}.

(** A state in which the database handle is open. *)
Definition connected_state (id : nat) : state :=
  set_conn (Some {| conn_id := id; closed := false |}) fresh_state.

(** One stored sample, taken at midnight. *)
Definition sample_row : ts_row :=
  {| row_timestamp := jan1_midnight; row_metric_value := 3 # 4 |}.

(** A world whose database accepts connections and loses the connection on
    every statement. *)
Definition dropping_db_world : world :=
  {| http_get := http_get offline_world;
     pg_connect := λ n, Some n;
     pg_execute := λ _ _ _ _, PgError true;
     pg_execute_ts := λ _ _ _, PgError true;
     es_construct := es_construct offline_world;
     es_ping := es_ping offline_world;
     es_search_logs := es_search_logs offline_world;
     es_search_histogram := es_search_histogram offline_world;
     es_search_app := es_search_app offline_world |}.

(** A row of the aggregation statement for the metric cpu_usage. *)
Definition cpu_row (avg : Q) : gmap string sql_value :=
  <["metric_name" := SqlText "cpu_usage"]> (<["avg_value" := SqlNumber avg]> ∅).

(** Two histogram buckets, the second without documents. *)
Definition sample_buckets : list histogram_bucket :=
  [{| bucket_key := 1704067200000; bucket_avg := Some (5 # 2) |};
   {| bucket_key := 1704067500000; bucket_avg := None |}].

(** Search answers over an empty index. *)
Definition empty_logs : log_response :=
  {| hits_total := 0; error_doc_count := 0; log_level_buckets := [] |}.

Definition empty_app : app_response :=
  {| avg_response_time := None; request_count := 0; status_code_buckets := [] |}.


Definition sample_app : app_response :=
  {| avg_response_time := None; request_count := 7;
     status_code_buckets := [("200", 6); ("500", 1)] |}.

(** The tracker answers 201 with an empty JSON object. *)
Definition created_without_key (_ : Jsm.post_request) : result Jsm.post_response :=
  Ok {| Jsm.status_code := 201;
        Jsm.text := "{}";
        Jsm.json_body := Some (JObj ∅) |}.

(** [{"bitcoin": {"usd": null}}] *)
Definition null_price : json :=
  JObj (<["bitcoin" := JObj (<["usd" := JNull]> ∅)]> ∅).

(** A request for an unknown target followed by the bitcoin price. *)
Definition unknown_then_bitcoin : query_request :=
  {| range_from := jan1_midnight; range_to := jan1_0010;
     targets := ["unknown.thing"; "api.crypto.bitcoin"] |}.

(** * Properties *)

(** ** What each call leaves of the state *)

Lemma fetch_weather_data_unfold (w : world) (st : state) :
  fetch_weather_data w st =
  let st1 := log (EvHttpGet (API_SOURCES "weather") weather_params 10) st in
  match weather_of (fst (requests_get w (API_SOURCES "weather") weather_params 10 st)) with
  | Ok d => (d, st1)
  | Raise _ => (∅, log (EvPrint "Weather API error") st1)
  end.
Proof.
  unfold fetch_weather_data, requests_get. simpl.
  destruct (weather_of _); reflexivity.
Qed.

Lemma fetch_crypto_prices_unfold (w : world) (coins : list string) (st : state) :
  fetch_crypto_prices w coins st =
  let st1 := log (EvHttpGet (API_SOURCES "crypto") (crypto_params coins) 10) st in
  match crypto_of coins
          (fst (requests_get w (API_SOURCES "crypto") (crypto_params coins) 10 st)) with
  | Ok d => (d, st1)
  | Raise _ => (∅, log (EvPrint "Crypto API error") st1)
  end.
Proof.
  unfold fetch_crypto_prices, requests_get. simpl.
  destruct (crypto_of _ _); reflexivity.
Qed.

Lemma fetch_github_stats_unfold (w : world) (repo : string) (st : state) :
  fetch_github_stats w repo st =
  let st1 := log (EvHttpGet (API_SOURCES "github" +:+ "/" +:+ repo) [] 10) st in
  match github_of
          (fst (requests_get w (API_SOURCES "github" +:+ "/" +:+ repo) [] 10 st)) with
  | Ok d => (d, st1)
  | Raise _ => (∅, log (EvPrint "GitHub API error") st1)
  end.
Proof.
  unfold fetch_github_stats, requests_get. simpl.
  destruct (github_of _); reflexivity.
Qed.

Section EsFrame.
Variable w : world.

Lemma weather_keeps_es st : es_collector (snd (fetch_weather_data w st)) = es_collector st.
Proof. rewrite fetch_weather_data_unfold. frame. Qed.

Lemma crypto_keeps_es coins st :
  es_collector (snd (fetch_crypto_prices w coins st)) = es_collector st.
Proof. rewrite fetch_crypto_prices_unfold. frame. Qed.

Lemma github_keeps_es repo st :
  es_collector (snd (fetch_github_stats w repo st)) = es_collector st.
Proof. rewrite fetch_github_stats_unfold. frame. Qed.

Lemma connect_keeps_es st : es_collector (snd (connect w st)) = es_collector st.
Proof. unfold connect. frame. Qed.

Lemma disconnect_keeps_es st : es_collector (disconnect st) = es_collector st.
Proof. unfold disconnect. frame. Qed.

Lemma ensure_connection_keeps_es st :
  es_collector (ensure_connection w st) = es_collector st.
Proof.
  unfold ensure_connection. destruct (handle_unusable _); [apply connect_keeps_es | reflexivity].
Qed.

Lemma mark_lost_keeps_es lost c st : es_collector (mark_lost lost c st) = es_collector st.
Proof. destruct lost; reflexivity. Qed.

Lemma run_query_keeps_es {row} sql params (exec : nat -> nat -> pg_outcome row) msg st :
  es_collector (snd (run_query w sql params exec msg st)) = es_collector st.
Proof.
  unfold run_query.
  destruct (open_cursor _); [destruct (exec _ _)|]; simpl;
    rewrite ?mark_lost_keeps_es; apply ensure_connection_keeps_es.
Qed.

Lemma es_search_keeps_es {A} index body (oracle : nat -> result A) st :
  es_collector (snd (es_search index body oracle st)) = es_collector st.
Proof. unfold es_search. frame. Qed.

Lemma es_log_metrics_keeps_es index field st :
  es_collector (snd (es_fetch_log_metrics w index field st)) = es_collector st.
Proof.
  unfold es_fetch_log_metrics. destruct (negb _); [reflexivity|].
  destruct (es_search _ _ _ _) as [r st1] eqn:E.
  assert (es_collector st1 = es_collector st) as <-
    by (rewrite <- (es_search_keeps_es index (LogLevelsQuery field)
                      (λ n, es_search_logs w n index field) st), E; reflexivity).
  destruct r; reflexivity.
Qed.

Lemma es_time_series_keeps_es index field a b st :
  es_collector (snd (es_fetch_time_series w index field a b st)) = es_collector st.
Proof.
  unfold es_fetch_time_series. destruct (negb _); [reflexivity|].
  destruct (es_search _ _ _ _) as [r st1] eqn:E.
  assert (es_collector st1 = es_collector st) as <-
    by (rewrite <- (es_search_keeps_es index (TimeSeriesQuery field a b)
                      (λ n, es_search_histogram w n index field a b) st), E; reflexivity).
  destruct r; reflexivity.
Qed.

Lemma es_app_metrics_keeps_es index st :
  es_collector (snd (es_fetch_application_metrics w index st)) = es_collector st.
Proof.
  unfold es_fetch_application_metrics. destruct (negb _); [reflexivity|].
  destruct (es_search _ _ _ _) as [r st1] eqn:E.
  assert (es_collector st1 = es_collector st) as <-
    by (rewrite <- (es_search_keeps_es index ApplicationQuery
                      (λ n, es_search_app w n index) st), E; reflexivity).
  destruct r; reflexivity.
Qed.

Lemma query_target_keeps_es a b ts metric st :
  es_collector (snd (query_target w a b ts metric st)) = es_collector st.
Proof.
  unfold query_target.
  repeat match goal with
         | |- context [if is_prefix ?p metric then _ else _] =>
             destruct (is_prefix p metric)
         end.
  - pose proof (weather_keeps_es st). destruct (fetch_weather_data w st); assumption.
  - pose proof (crypto_keeps_es default_coins st).
    destruct (fetch_crypto_prices w default_coins st); assumption.
  - pose proof (github_keeps_es default_repo st).
    destruct (fetch_github_stats w default_repo st); assumption.
  - unfold pg_fetch_time_series.
    match goal with
    | |- context [run_query w ?s ?p ?e ?m st] =>
        pose proof (run_query_keeps_es s p e m st);
        destruct (run_query w s p e m st)
    end; assumption.
  - pose proof (es_time_series_keeps_es "metrics-*" (last_segment metric) a b st).
    destruct (es_fetch_time_series _ _ _ _ _ _); assumption.
  - reflexivity.
Qed.

Lemma query_targets_keeps_es a b ts metrics : forall results st,
  es_collector (snd (query_targets w a b ts metrics results st)) = es_collector st.
Proof.
  induction metrics as [|metric rest IH]; intros results st; simpl; [reflexivity|].
  pose proof (query_target_keeps_es a b ts metric st) as H.
  destruct (query_target w a b ts metric st) as [[entry|e] st1]; simpl in H.
  - rewrite IH. exact H.
  - exact H.
Qed.

Lemma query_keeps_es req st : es_collector (snd (query w req st)) = es_collector st.
Proof.
  unfold query. destruct (generate_timestamps _ _); [apply query_targets_keeps_es | reflexivity].
Qed.

Lemma run_keeps_es op st : es_collector (run w op st) = es_collector st.
Proof.
  destruct op; simpl;
    auto using weather_keeps_es, crypto_keeps_es, github_keeps_es, connect_keeps_es,
      disconnect_keeps_es, es_log_metrics_keeps_es, es_time_series_keeps_es,
      es_app_metrics_keeps_es, query_keeps_es.
  - unfold health. pose proof (connect_keeps_es st).
    destruct (connect w st); simpl in *. rewrite disconnect_keeps_es. assumption.
  - apply run_query_keeps_es.
  - apply run_query_keeps_es.
Qed.

Lemma run_all_keeps_es ops : forall st,
  es_collector (run_all w ops st) = es_collector st.
Proof.
  unfold run_all. induction ops as [|op ops IH]; intros st; simpl; [reflexivity|].
  rewrite IH. apply run_keeps_es.
Qed.
End EsFrame.

(** ** The search connector stays disconnected *)

Lemma es_init_disconnected (w : world) (st : state) :
  liveness_check_fails w st -> connected (es_collector (es_init w st)) = false.
Proof.
  unfold es_init. intros [H | [H | [e H]]].
  - rewrite H. reflexivity.
  - destruct (es_construct w (now st)); [rewrite H|]; reflexivity.
  - destruct (es_construct w (now st)); [rewrite H|]; reflexivity.
Qed.

(** C5: when the liveness check made by the constructor fails, [connected] is
    false after construction and after any sequence of later operations, and
    each of the three fetch methods then returns its empty result and leaves
    the state, trace included, untouched: no search call is issued. *)
Theorem es_disconnected_for_good (w : world) (st : state) (ops : list operation) :
  liveness_check_fails w st ->
  let st' := run_all w ops (es_init w st) in
  connected (es_collector st') = false
  /\ (forall index field, es_fetch_log_metrics w index field st' = (∅, st'))
  /\ (forall index field a b,
        es_fetch_time_series w index field a b st' = ([], st'))
  /\ (forall index, es_fetch_application_metrics w index st' = (∅, st')).
Proof.
  intros Hfail st'.
  assert (connected (es_collector st') = false) as Hc.
  { unfold st'. rewrite run_all_keeps_es. apply es_init_disconnected, Hfail. }
  repeat split; [exact Hc | intros ..].
  - unfold es_fetch_log_metrics. rewrite Hc. reflexivity.
  - unfold es_fetch_time_series. rewrite Hc. reflexivity.
  - unfold es_fetch_application_metrics. rewrite Hc. reflexivity.
Qed.

Lemma es_disconnected_for_good_witness :
  liveness_check_fails offline_world fresh_state
  /\ let st' := run_all offline_world [ServeQuery sample_request; ServeHealth]
                  (es_init offline_world fresh_state) in
     connected (es_collector st') = false
     /\ (forall index field,
           es_fetch_log_metrics offline_world index field st' = (∅, st'))
     /\ (forall index field a b,
           es_fetch_time_series offline_world index field a b st' = ([], st'))
     /\ (forall index,
           es_fetch_application_metrics offline_world index st' = (∅, st')).
Proof.
  assert (liveness_check_fails offline_world fresh_state) as H
    by (right; left; reflexivity).
  split; [exact H|].
  exact (es_disconnected_for_good offline_world fresh_state
           [ServeQuery sample_request; ServeHealth] H).
Defined.

(** ** The relational connector reconnects and swallows errors *)

Section RunQuery.
Context {row : Type}.
Variables (w : world) (sql : string) (params : list sql_param).
Variables (exec : nat -> nat -> pg_outcome row) (message : string).

Lemma run_query_reconnects (st : state) :
  handle_unusable (pg_collector st) = true ->
  exists tail,
    trace (snd (run_query w sql params exec message st))
    = trace st ++ EvPgConnect :: tail
    /\ forall c q p, In (EvPgExecute c q p) tail ->
         pg_connect w (now st) = Some c /\ q = sql /\ p = params.
Proof.
  intros Hun. unfold run_query, ensure_connection. rewrite Hun.
  unfold connect. destruct (pg_connect w (now st)) as [id|]; simpl.
  - destruct (exec _ id) as [rows|lost]; simpl.
    + exists [EvPgExecute id sql params]. rewrite <- app_assoc. split; [reflexivity|].
      intros c q p [E|[]]. injection E as <- <- <-. auto.
    + exists [EvPgExecute id sql params; EvPrint message].
      split.
      * destruct lost; simpl; rewrite <- !app_assoc; reflexivity.
      * intros c q p [E|[E|[]]]; [|discriminate]. injection E as <- <- <-. auto.
  - assert (open_cursor (pg_collector st) = Raise AttributeError
            \/ open_cursor (pg_collector st) = Raise DatabaseError) as Hc.
    { unfold handle_unusable in Hun. unfold open_cursor.
      destruct (conn (pg_collector st)) as [c|]; [rewrite Hun|]; auto. }
    exists [EvPrint "PostgreSQL connection error"; EvPrint message].
    split.
    + destruct Hc as [-> | ->]; simpl; rewrite <- !app_assoc; reflexivity.
    + intros c q p [E|[E|[]]]; discriminate.
Qed.

Lemma run_query_connect_error (st : state) :
  handle_unusable (pg_collector st) = true ->
  pg_connect w (now st) = None ->
  fst (run_query w sql params exec message st) = [].
Proof.
  intros Hun Hnone. unfold run_query, ensure_connection. rewrite Hun.
  unfold connect. rewrite Hnone. simpl.
  unfold handle_unusable in Hun. unfold open_cursor.
  destruct (conn (pg_collector st)) as [c|]; [rewrite Hun|]; reflexivity.
Qed.

Lemma run_query_execute_error (st : state) (c : pg_connection) (lost : bool) :
  open_cursor (pg_collector (ensure_connection w st)) = Ok c ->
  exec (now (ensure_connection w st)) (conn_id c) = PgError lost ->
  fst (run_query w sql params exec message st) = [].
Proof.
  intros Hc He. unfold run_query. rewrite Hc, He. reflexivity.
Qed.

Lemma run_query_no_rows (st : state) (c : pg_connection) :
  open_cursor (pg_collector (ensure_connection w st)) = Ok c ->
  exec (now (ensure_connection w st)) (conn_id c) = PgRows [] ->
  fst (run_query w sql params exec message st) = [].
Proof.
  intros Hc He. unfold run_query. rewrite Hc, He. reflexivity.
Qed.
End RunQuery.

(** C6: for [fetch_metrics] and [fetch_time_series], (1) with the handle
    absent or closed the first thing done is a connection attempt, and a
    query that is executed at all runs after it, on the connection just
    established; (2) a failed connection attempt ends in the empty list, and
    so does a failed execution; (3) the empty list is also what a successful
    query without rows returns, so the two cannot be told apart. *)
Theorem pg_reads_reconnect_and_swallow (w : world) (st : state)
    (query : option string) (name : string) (a b : datetime) :
  (handle_unusable (pg_collector st) = true ->
     (exists tail,
        trace (snd (fetch_metrics w query st)) = trace st ++ EvPgConnect :: tail
        /\ forall c q p, In (EvPgExecute c q p) tail ->
             pg_connect w (now st) = Some c /\ q = metrics_sql query /\ p = [])
     /\ (exists tail,
        trace (snd (pg_fetch_time_series w name a b st))
        = trace st ++ EvPgConnect :: tail
        /\ forall c q p, In (EvPgExecute c q p) tail ->
             pg_connect w (now st) = Some c /\ q = time_series_sql
             /\ p = time_series_params name a b))
  /\ (handle_unusable (pg_collector st) = true -> pg_connect w (now st) = None ->
        fst (fetch_metrics w query st) = []
        /\ fst (pg_fetch_time_series w name a b st) = [])
  /\ (forall c,
        open_cursor (pg_collector (ensure_connection w st)) = Ok c ->
        let answer := pg_execute w (now (ensure_connection w st)) (conn_id c)
                        (metrics_sql query) [] in
        (forall lost, answer = PgError lost -> fst (fetch_metrics w query st) = [])
        /\ (answer = PgRows [] -> fst (fetch_metrics w query st) = []))
  /\ (forall c,
        open_cursor (pg_collector (ensure_connection w st)) = Ok c ->
        let answer := pg_execute_ts w (now (ensure_connection w st)) (conn_id c)
                        (time_series_params name a b) in
        (forall lost, answer = PgError lost ->
           fst (pg_fetch_time_series w name a b st) = [])
        /\ (answer = PgRows [] -> fst (pg_fetch_time_series w name a b st) = [])).
Proof.
  unfold fetch_metrics, pg_fetch_time_series.
  fold (metrics_sql query). fold (time_series_params name a b).
  repeat split.
  - apply run_query_reconnects; assumption.
  - apply run_query_reconnects; assumption.
  - apply run_query_connect_error; assumption.
  - apply run_query_connect_error; assumption.
  - intros lost He. eapply run_query_execute_error; eassumption.
  - intros He. eapply run_query_no_rows; eassumption.
  - intros lost He. eapply run_query_execute_error; eassumption.
  - intros He. eapply run_query_no_rows; eassumption.
Qed.

Lemma pg_reads_reconnect_and_swallow_witness :
  fst (pg_fetch_time_series offline_world "cpu_usage" jan1_midnight jan1_0010
         fresh_state) = []
  /\ fst (fetch_metrics failing_db_world None fresh_state) = [].
Proof.
  split.
  - apply (pg_reads_reconnect_and_swallow offline_world fresh_state None
             "cpu_usage" jan1_midnight jan1_0010); reflexivity.
  - destruct (pg_reads_reconnect_and_swallow failing_db_world fresh_state None
                "cpu_usage" jan1_midnight jan1_0010) as (_ & _ & H & _).
    apply (H {| conn_id := 7; closed := false |} eq_refl) with (lost := false).
    reflexivity.
Defined.

(** ** The ticket filer *)

(** C7: when the POST comes back with status 201 and a JSON object holding
    ["key"], the script prints that key as the created incident; with any
    other status it prints the status code and the raw body; in both cases it
    runs to its end. *)
Theorem ticket_filer_report (email : string) (env : Jsm.environ)
    (post : Jsm.post_request -> result Jsm.post_response)
    (response : Jsm.post_response) :
  post (Jsm.build_request email env) = Ok response ->
  (forall (o : gmap string json) (K : json),
     Jsm.status_code response = 201 ->
     Jsm.json_body response = Some (JObj o) ->
     o !! "key" = Some K ->
     Jsm.main email env post
     = Ok [[Jsm.PStr "Incident created successfully:"; Jsm.PJson K]])
  /\ (Jsm.status_code response <> 201 ->
      Jsm.main email env post
      = Ok [[Jsm.PStr "Error:"; Jsm.PInt (Jsm.status_code response);
             Jsm.PStr (Jsm.text response)]]).
Proof.
  intros Hpost. unfold Jsm.main. rewrite Hpost. simpl. split.
  - intros o K -> -> HK. simpl. rewrite HK. reflexivity.
  - intros Hne. apply Z.eqb_neq in Hne. rewrite Hne. reflexivity.
Qed.

Lemma ticket_filer_report_witness :
  Jsm.main "someone@example.com" sample_environ created_PROJ_123
  = Ok [[Jsm.PStr "Incident created successfully:"; Jsm.PJson (JStr "PROJ-123")]]
  /\ Jsm.main "someone@example.com" sample_environ unauthorized
     = Ok [[Jsm.PStr "Error:"; Jsm.PInt 401; Jsm.PStr "Unauthorized"]].
Proof.
  split.
  - eapply (ticket_filer_report "someone@example.com" sample_environ created_PROJ_123);
      reflexivity.
  - refine (proj2 (ticket_filer_report "someone@example.com" sample_environ
                     unauthorized
                     {| Jsm.status_code := 401; Jsm.text := "Unauthorized";
                        Jsm.json_body := None |} eq_refl) _).
    discriminate.
Defined.

(** C8: the value given to [--email] changes nothing: the credentials, the
    whole outbound request and the run of the script are the same for any two
    values, the user name being the address written in the script. *)
Theorem email_argument_has_no_effect (email1 email2 : string) (env : Jsm.environ)
    (post : Jsm.post_request -> result Jsm.post_response) :
  Jsm.credentials email1 env = Jsm.credentials email2 env
  /\ Jsm.username (Jsm.credentials email1 env) = "almir.alitovic@logicpulse.ba"
  /\ Jsm.build_request email1 env = Jsm.build_request email2 env
  /\ Jsm.main email1 env post = Jsm.main email2 env post.
Proof. repeat split. Qed.

(** ** The API connectors *)

Lemma requests_get_fst w url params timeout st :
  fst (requests_get w url params timeout st)
  = outcome_response (http_get w (now st) url params).
Proof. unfold requests_get. simpl. destruct (http_get _ _ _ _); reflexivity. Qed.

Lemma raise_for_status_error code body :
  400 <= code < 600 ->
  raise_for_status {| status_code := code; json_body := body |} = Raise HTTPError.
Proof.
  intros H. unfold raise_for_status. simpl.
  replace (400 <=? code) with true by (symmetry; apply Z.leb_le; lia).
  replace (code <? 600) with true by (symmetry; apply Z.ltb_lt; lia).
  reflexivity.
Qed.

Lemma raise_for_status_fine code body :
  ~ 400 <= code < 600 ->
  raise_for_status {| status_code := code; json_body := body |} = Ok tt.
Proof.
  intros H. unfold raise_for_status. simpl.
  destruct (400 <=? code) eqn:E1; [|reflexivity].
  destruct (code <? 600) eqn:E2; [|reflexivity].
  apply Z.leb_le in E1. apply Z.ltb_lt in E2. lia.
Qed.

Section Unusable.
Variable o : http_outcome.
Hypothesis Ho : unusable o.

Lemma weather_of_unusable : raises (weather_of (outcome_response o)).
Proof.
  destruct o as [e|code body]; simpl in *; [eexists; reflexivity|].
  unfold weather_of. simpl. destruct Ho as [H | ->].
  - rewrite raise_for_status_error by assumption. eexists; reflexivity.
  - destruct (raise_for_status _); eexists; reflexivity.
Qed.

Lemma crypto_of_unusable coins : raises (crypto_of coins (outcome_response o)).
Proof.
  destruct o as [e|code body]; simpl in *; [eexists; reflexivity|].
  unfold crypto_of. simpl. destruct Ho as [H | ->].
  - rewrite raise_for_status_error by assumption. eexists; reflexivity.
  - destruct (raise_for_status _); eexists; reflexivity.
Qed.

Lemma github_of_unusable : raises (github_of (outcome_response o)).
Proof.
  destruct o as [e|code body]; simpl in *; [eexists; reflexivity|].
  unfold github_of. simpl. destruct Ho as [H | ->].
  - rewrite raise_for_status_error by assumption. eexists; reflexivity.
  - destruct (raise_for_status _); eexists; reflexivity.
Qed.
End Unusable.

Lemma weather_of_missing o data f :
  delivers o data -> In f weather_fields ->
  raises (getitem data "current" ≫= (λ c, getitem c f)) ->
  raises (weather_of (outcome_response o)).
Proof.
  intros (code & -> & Hcode) Hf [e He]. unfold weather_of. simpl.
  rewrite raise_for_status_fine by assumption. simpl.
  simpl in Hf. destruct Hf as [<- | [<- | [<- | []]]]; rewrite ?He; simpl;
    repeat (match goal with
            | |- raises (Raise _) => eexists; reflexivity
            | |- raises (mbind _ ?r) => destruct r; simpl
            end).
Qed.

Lemma github_of_missing o data f :
  delivers o data -> In f github_fields -> raises (getitem data f) ->
  raises (github_of (outcome_response o)).
Proof.
  intros (code & -> & Hcode) Hf [e He]. unfold github_of. simpl.
  rewrite raise_for_status_fine by assumption. simpl.
  simpl in Hf. destruct Hf as [<- | [<- | [<- | [<- | []]]]]; rewrite ?He; simpl;
    repeat (match goal with
            | |- raises (Raise _) => eexists; reflexivity
            | |- raises (mbind _ ?r) => destruct r; simpl
            end).
Qed.

Lemma usd_prices_missing data coin coins :
  In coin coins ->
  raises (contains data coin)
  \/ (contains data coin = Ok true
      /\ raises (getitem data coin ≫= (λ c, getitem c "usd"))) ->
  forall acc, raises (usd_prices data coins acc).
Proof.
  intros Hin Hbad. induction coins as [|c rest IH]; [destruct Hin|].
  intros acc. simpl.
  destruct (contains data c) as [present|e] eqn:Hc; [|eexists; reflexivity].
  simpl.
  destruct Hin as [-> | Hin].
  - destruct Hbad as [[e He] | [Ht [e He]]]; [congruence|].
    assert (present = true) as -> by congruence.
    rewrite He. eexists; reflexivity.
  - destruct present; [|apply IH, Hin].
    destruct (getitem data c ≫= _); simpl; [apply IH, Hin | eexists; reflexivity].
Qed.

Lemma crypto_of_missing o data coin coins :
  delivers o data -> In coin coins ->
  raises (contains data coin)
  \/ (contains data coin = Ok true
      /\ raises (getitem data coin ≫= (λ c, getitem c "usd"))) ->
  raises (crypto_of coins (outcome_response o)).
Proof.
  intros (code & -> & Hcode) Hin Hbad. unfold crypto_of. simpl.
  rewrite raise_for_status_fine by assumption. simpl.
  apply (usd_prices_missing data coin); assumption.
Qed.

Lemma http_calls_app tr1 tr2 : http_calls (tr1 ++ tr2) = http_calls tr1 ++ http_calls tr2.
Proof. apply flat_map_app. Qed.

Lemma weather_one_get w st :
  http_calls (trace (snd (fetch_weather_data w st)))
  = http_calls (trace st) ++ [(API_SOURCES "weather", weather_params, 10)].
Proof.
  rewrite fetch_weather_data_unfold. simpl.
  destruct (weather_of _); simpl; rewrite !http_calls_app; simpl;
    rewrite ?app_nil_r; reflexivity.
Qed.

Lemma crypto_one_get w coins st :
  http_calls (trace (snd (fetch_crypto_prices w coins st)))
  = http_calls (trace st) ++ [(API_SOURCES "crypto", crypto_params coins, 10)].
Proof.
  rewrite fetch_crypto_prices_unfold. simpl.
  destruct (crypto_of _ _); simpl; rewrite !http_calls_app; simpl;
    rewrite ?app_nil_r; reflexivity.
Qed.

Lemma github_one_get w repo st :
  http_calls (trace (snd (fetch_github_stats w repo st)))
  = http_calls (trace st) ++ [(API_SOURCES "github" +:+ "/" +:+ repo, [], 10)].
Proof.
  rewrite fetch_github_stats_unfold. simpl.
  destruct (github_of _); simpl; rewrite !http_calls_app; simpl;
    rewrite ?app_nil_r; reflexivity.
Qed.

Lemma weather_empty_on_raise w st :
  raises (weather_of (outcome_response
            (http_get w (now st) (API_SOURCES "weather") weather_params))) ->
  fst (fetch_weather_data w st) = ∅.
Proof.
  intros [e He]. rewrite fetch_weather_data_unfold, requests_get_fst, He. reflexivity.
Qed.

Lemma crypto_empty_on_raise w coins st :
  raises (crypto_of coins (outcome_response
            (http_get w (now st) (API_SOURCES "crypto") (crypto_params coins)))) ->
  fst (fetch_crypto_prices w coins st) = ∅.
Proof.
  intros [e He]. rewrite fetch_crypto_prices_unfold, requests_get_fst, He. reflexivity.
Qed.

Lemma github_empty_on_raise w repo st :
  raises (github_of (outcome_response
            (http_get w (now st) (API_SOURCES "github" +:+ "/" +:+ repo) []))) ->
  fst (fetch_github_stats w repo st) = ∅.
Proof.
  intros [e He]. rewrite fetch_github_stats_unfold, requests_get_fst, He. reflexivity.
Qed.

(** C4 as stated fails for the price connector: the answer lacks the
    requested ["ethereum"] entry, yet the mapping returned is not empty. *)
Lemma crypto_partial_answer_kept :
  delivers (http_get (http_world bitcoin_only) (now fresh_state)
              (API_SOURCES "crypto") (crypto_params default_coins)) bitcoin_only
  /\ getitem bitcoin_only "ethereum" = Raise KeyError
  /\ fst (fetch_crypto_prices (http_world bitcoin_only) default_coins fresh_state)
     = {[ "bitcoin" := JNum (PyInt 42000) ]}
  /\ fst (fetch_crypto_prices (http_world bitcoin_only) default_coins fresh_state)
     <> ∅.
Proof.
  split; [|split; [|split]].
  - exists 200. split; [reflexivity | lia].
  - reflexivity.
  - reflexivity.
  - intros H. apply (f_equal (λ m : gmap string json, m !! "bitcoin")) in H.
    vm_compute in H. discriminate.
Qed.

(** C4, amended: each API connector, which is a total function returning a
    mapping, issues exactly one GET, with timeout 10, and returns the empty
    mapping when the client raises (connection failure, timeout), when the
    status is an error status, when the body is not JSON, and when a field it
    reads is missing: for the weather and repository connectors any of their
    fields, for the price connector the ["usd"] field of a coin that the
    answer contains. *)
Theorem api_connectors_fail_empty (w : world) (st : state)
    (coins : list string) (repo : string) :
  let weather := http_get w (now st) (API_SOURCES "weather") weather_params in
  let crypto := http_get w (now st) (API_SOURCES "crypto") (crypto_params coins) in
  let github := http_get w (now st) (API_SOURCES "github" +:+ "/" +:+ repo) [] in
  (http_calls (trace (snd (fetch_weather_data w st)))
   = http_calls (trace st) ++ [(API_SOURCES "weather", weather_params, 10)]
   /\ http_calls (trace (snd (fetch_crypto_prices w coins st)))
      = http_calls (trace st) ++ [(API_SOURCES "crypto", crypto_params coins, 10)]
   /\ http_calls (trace (snd (fetch_github_stats w repo st)))
      = http_calls (trace st) ++ [(API_SOURCES "github" +:+ "/" +:+ repo, [], 10)])
  /\ (unusable weather
      \/ (exists data f, delivers weather data /\ In f weather_fields
            /\ raises (getitem data "current" ≫= (λ c, getitem c f))) ->
      fst (fetch_weather_data w st) = ∅)
  /\ (unusable crypto
      \/ (exists data coin, delivers crypto data /\ In coin coins
            /\ contains data coin = Ok true
            /\ raises (getitem data coin ≫= (λ c, getitem c "usd"))) ->
      fst (fetch_crypto_prices w coins st) = ∅)
  /\ (unusable github
      \/ (exists data f, delivers github data /\ In f github_fields
            /\ raises (getitem data f)) ->
      fst (fetch_github_stats w repo st) = ∅).
Proof.
  intros weather crypto github.
  split; [auto using weather_one_get, crypto_one_get, github_one_get|].
  split; [|split].
  - intros H. apply weather_empty_on_raise. fold weather.
    destruct H as [H | (data & f & Hd & Hf & Hr)].
    + apply weather_of_unusable, H.
    + eapply weather_of_missing; eassumption.
  - intros H. apply crypto_empty_on_raise. fold crypto.
    destruct H as [H | (data & coin & Hd & Hin & Hc & Hr)].
    + apply crypto_of_unusable, H.
    + eapply crypto_of_missing; eauto.
  - intros H. apply github_empty_on_raise. fold github.
    destruct H as [H | (data & f & Hd & Hf & Hr)].
    + apply github_of_unusable, H.
    + eapply github_of_missing; eassumption.
Qed.

Lemma api_connectors_fail_empty_witness :
  fst (fetch_weather_data timeout_world fresh_state) = ∅
  /\ fst (fetch_crypto_prices (http_world ethereum_without_usd) default_coins
            fresh_state) = ∅
  /\ fst (fetch_github_stats (http_world both_coins) default_repo fresh_state) = ∅.
Proof.
  split; [|split].
  - destruct (api_connectors_fail_empty timeout_world fresh_state default_coins
                default_repo) as (_ & H & _).
    apply H. left. exact I.
  - destruct (api_connectors_fail_empty (http_world ethereum_without_usd)
                fresh_state default_coins default_repo) as (_ & _ & H & _).
    apply H. right. exists ethereum_without_usd, "ethereum".
    split; [exists 200; split; [reflexivity | lia]|].
    split; [right; left; reflexivity|].
    split; [reflexivity|]. exists KeyError. reflexivity.
  - destruct (api_connectors_fail_empty (http_world both_coins) fresh_state
                default_coins default_repo) as (_ & _ & _ & H).
    apply H. right. exists both_coins, "forks_count".
    split; [exists 200; split; [reflexivity | lia]|].
    split; [right; left; reflexivity|]. exists KeyError. reflexivity.
Defined.

(** ** Which keys a connector can return *)

Lemma weather_of_keys r d k :
  weather_of r = Ok d -> is_Some (d !! k) ->
  In k ["temperature"; "wind_speed"; "humidity"].
Proof.
  unfold weather_of. intros H Hk.
  destruct r as [resp|]; simpl in H; [|discriminate].
  destruct (raise_for_status resp); simpl in H; [|discriminate].
  destruct (resp_json resp) as [data|]; simpl in H; [|discriminate].
  repeat match type of H with
         | context [mbind _ ?x] => destruct x; simpl in H; [|discriminate]
         end.
  injection H as <-.
  repeat (rewrite lookup_insert in Hk; case_decide; [subst; simpl; tauto|]).
  rewrite lookup_empty in Hk. destruct Hk as [? [=]].
Qed.

Lemma github_of_keys r d k :
  github_of r = Ok d -> is_Some (d !! k) ->
  In k ["stars"; "forks"; "open_issues"; "watchers"].
Proof.
  unfold github_of. intros H Hk.
  destruct r as [resp|]; simpl in H; [|discriminate].
  destruct (raise_for_status resp); simpl in H; [|discriminate].
  destruct (resp_json resp) as [data|]; simpl in H; [|discriminate].
  repeat match type of H with
         | context [mbind _ ?x] => destruct x; simpl in H; [|discriminate]
         end.
  injection H as <-.
  repeat (rewrite lookup_insert in Hk; case_decide; [subst; simpl; tauto|]).
  rewrite lookup_empty in Hk. destruct Hk as [? [=]].
Qed.

Lemma usd_prices_keys data coins : forall acc d k,
  usd_prices data coins acc = Ok d -> is_Some (d !! k) ->
  In k coins \/ is_Some (acc !! k).
Proof.
  induction coins as [|coin rest IH]; intros acc d k H Hk; simpl in H.
  - injection H as <-. auto.
  - destruct (contains data coin) as [[|]|]; simpl in H; [| |discriminate].
    + destruct (getitem data coin ≫= _) as [price|]; simpl in H; [|discriminate].
      destruct (IH _ _ _ H Hk) as [Hin | Hacc]; [left; right; exact Hin|].
      rewrite lookup_insert in Hacc. case_decide; [subst; left; left; reflexivity|].
      auto.
    + destruct (IH _ _ _ H Hk) as [Hin | Hacc]; [left; right; exact Hin | auto].
Qed.

Lemma crypto_of_keys coins r d k :
  crypto_of coins r = Ok d -> is_Some (d !! k) -> In k coins.
Proof.
  unfold crypto_of. intros H Hk.
  destruct r as [resp|]; simpl in H; [|discriminate].
  destruct (raise_for_status resp); simpl in H; [|discriminate].
  destruct (resp_json resp) as [data|]; simpl in H; [|discriminate].
  destruct (usd_prices_keys _ _ _ _ _ H Hk) as [Hin | Hacc]; [exact Hin|].
  rewrite lookup_empty in Hacc. destruct Hacc as [? [=]].
Qed.

Lemma fetch_weather_keys w st k :
  is_Some (fst (fetch_weather_data w st) !! k) ->
  In k ["temperature"; "wind_speed"; "humidity"].
Proof.
  rewrite fetch_weather_data_unfold. simpl.
  destruct (weather_of _) as [d|] eqn:E; simpl.
  - eapply weather_of_keys, E.
  - rewrite lookup_empty. intros [? [=]].
Qed.

Lemma fetch_crypto_keys w coins st k :
  is_Some (fst (fetch_crypto_prices w coins st) !! k) -> In k coins.
Proof.
  rewrite fetch_crypto_prices_unfold. simpl.
  destruct (crypto_of _ _) as [d|] eqn:E; simpl.
  - eapply crypto_of_keys, E.
  - rewrite lookup_empty. intros [? [=]].
Qed.

Lemma fetch_github_keys w repo st k :
  is_Some (fst (fetch_github_stats w repo st) !! k) ->
  In k ["stars"; "forks"; "open_issues"; "watchers"].
Proof.
  rewrite fetch_github_stats_unfold. simpl.
  destruct (github_of _) as [d|] eqn:E; simpl.
  - eapply github_of_keys, E.
  - rewrite lookup_empty. intros [? [=]].
Qed.

(** ** Prefixes *)

Lemma is_prefix_comparable p : forall q s,
  is_prefix p s = true -> is_prefix q s = true ->
  is_prefix p q = true \/ is_prefix q p = true.
Proof.
  induction p as [|a p IH]; intros q s Hp Hq; [left; reflexivity|].
  destruct q as [|b q]; [right; reflexivity|].
  destruct s as [|c s]; [discriminate|].
  simpl in *.
  apply andb_true_iff in Hp as [Ha Hp]. apply andb_true_iff in Hq as [Hb Hq].
  apply bool_decide_eq_true in Ha, Hb. subst.
  rewrite !bool_decide_eq_true_2 by reflexivity. simpl.
  eapply IH; eassumption.
Qed.

Lemma is_prefix_exclusive p q s :
  is_prefix p q = false -> is_prefix q p = false ->
  is_prefix p s = true -> is_prefix q s = false.
Proof.
  intros Hpq Hqp Hp. destruct (is_prefix q s) eqn:Hq; [|reflexivity].
  destruct (is_prefix_comparable p q s Hp Hq); congruence.
Qed.

Lemma family_of_prefix p f metric :
  is_prefix p metric = true ->
  family_of p = f ->
  In p ["api.weather."; "api.crypto."; "api.github."; "postgres."; "elastic."] ->
  family_of metric = f.
Proof.
  intros Hp <- Hin. unfold family_of at 1.
  simpl in Hin.
  destruct Hin as [<- | [<- | [<- | [<- | [<- | []]]]]];
    repeat first
      [ rewrite Hp
      | match type of Hp with
        | is_prefix ?p _ = true =>
            match goal with
            | |- context [is_prefix ?q metric] =>
                rewrite (is_prefix_exclusive p q metric eq_refl eq_refl Hp)
            end
        end ];
    reflexivity.
Qed.

(** ** The gateway, target by target *)

Lemma query_target_by_family w a b ts metric st :
  query_target w a b ts metric st =
  match family_of metric with
  | Weather =>
      (entry_of metric <$>
         api_datapoints weather_jitter (fst (fetch_weather_data w st))
           (last_segment metric) ts,
       snd (fetch_weather_data w st))
  | Crypto =>
      (entry_of metric <$>
         api_datapoints crypto_jitter (fst (fetch_crypto_prices w default_coins st))
           (last_segment metric) ts,
       snd (fetch_crypto_prices w default_coins st))
  | Github =>
      (entry_of metric <$>
         api_datapoints github_jitter (fst (fetch_github_stats w default_repo st))
           (last_segment metric) ts,
       snd (fetch_github_stats w default_repo st))
  | Postgres =>
      (Ok (entry_of metric
             (map pg_datapoint
                (fst (pg_fetch_time_series w (last_segment metric) a b st)))),
       snd (pg_fetch_time_series w (last_segment metric) a b st))
  | Elastic =>
      (entry_of metric <$>
         es_datapoints
           (fst (es_fetch_time_series w "metrics-*" (last_segment metric) a b st)),
       snd (es_fetch_time_series w "metrics-*" (last_segment metric) a b st))
  | Unmatched => (Ok (entry_of metric []), st)
  end.
Proof.
  unfold query_target, family_of.
  repeat match goal with
         | |- context [if is_prefix ?p metric then _ else _] =>
             destruct (is_prefix p metric)
         end;
    try reflexivity;
    match goal with
    | |- context [let '(_, _) := ?c in _] => destruct c; reflexivity
    end.
Qed.

Lemma fmap_entry_ok metric (r : result (list (number * Z))) e :
  entry_of metric <$> r = Ok e ->
  exists dps, r = Ok dps /\ e = entry_of metric dps.
Proof. destruct r as [dps|]; [|discriminate]. intros [= <-]. eauto. Qed.

Lemma query_target_echo w a b ts metric st e :
  fst (query_target w a b ts metric st) = Ok e -> target e = metric.
Proof.
  rewrite query_target_by_family.
  destruct (family_of metric); simpl; intros H;
    try (apply fmap_entry_ok in H as (dps & _ & ->); reflexivity);
    injection H as <-; reflexivity.
Qed.

Lemma query_targets_ok w a b ts metrics : forall results st resp st',
  query_targets w a b ts metrics results st = (Ok resp, st') ->
  exists entries, resp = results ++ entries
                  /\ Forall2 (produced w a b ts) metrics entries.
Proof.
  induction metrics as [|metric rest IH]; intros results st resp st' H; simpl in H.
  - injection H as <- <-. exists []. rewrite app_nil_r. split; constructor.
  - destruct (query_target w a b ts metric st) as [[entry|e] st1] eqn:E;
      [|discriminate].
    apply IH in H as (entries & -> & HF).
    exists (entry :: entries). rewrite <- app_assoc. split; [reflexivity|].
    constructor; [|exact HF]. exists st. rewrite E. reflexivity.
Qed.

Lemma query_ok w req st resp st' :
  query w req st = (Ok resp, st') ->
  exists ts, generate_timestamps (range_from req) (range_to req) = Ok ts
             /\ Forall2 (produced w (range_from req) (range_to req) ts)
                  (targets req) resp.
Proof.
  unfold query. destruct (generate_timestamps _ _) as [ts|]; [|discriminate].
  intros H. apply query_targets_ok in H as (entries & -> & HF). eauto.
Qed.

(** Whenever there is a response, it has one entry per target, in order,
    each carrying its target. *)
Lemma query_echoes_targets w req st resp st' :
  query w req st = (Ok resp, st') -> map target resp = targets req.
Proof.
  intros H. apply query_ok in H as (ts & _ & HF).
  induction HF as [|metric e metrics entries [st0 He] _ IH]; [reflexivity|].
  simpl. rewrite IH. f_equal. eapply query_target_echo, He.
Qed.

(** The loop goes through every target whose processing raises nothing. *)
Lemma query_targets_all_ok w a b ts metrics :
  (forall metric st, In metric metrics ->
     exists e, fst (query_target w a b ts metric st) = Ok e) ->
  forall results st, exists resp st',
    query_targets w a b ts metrics results st = (Ok resp, st').
Proof.
  induction metrics as [|metric rest IH]; intros Hok results st; simpl; [eauto|].
  destruct (Hok metric st (or_introl eq_refl)) as [e He].
  destruct (query_target w a b ts metric st) as [r st1]. simpl in He. subst r.
  apply IH. intros m s Hin. apply Hok. right. exact Hin.
Qed.

Lemma api_datapoints_absent jitter (data : gmap string json) name ts :
  data !! name = None -> api_datapoints jitter data name ts = Ok [].
Proof. unfold api_datapoints. intros ->. reflexivity. Qed.

Lemma api_datapoints_no_timestamps jitter (data : gmap string json) name :
  api_datapoints jitter data name [] = Ok [].
Proof. unfold api_datapoints. destruct (data !! name); reflexivity. Qed.

Lemma not_Some_None {A} (o : option A) : ~ is_Some o -> o = None.
Proof. destruct o; [intros H; destruct H; eauto | reflexivity]. Qed.

(** ** Metric names outside the default sets *)

Lemma outside_defaults_empty w a b ts metric st :
  outside_defaults metric ->
  fst (query_target w a b ts metric st) = Ok (entry_of metric []).
Proof.
  intros H. rewrite query_target_by_family.
  destruct H as [[Hp Hn] | [[Hp Hn] | [Hp Hn]]].
  - rewrite (family_of_prefix "api.crypto." Crypto metric Hp eq_refl)
      by (simpl; tauto).
    simpl. rewrite api_datapoints_absent; [reflexivity|].
    apply not_Some_None. intros Hs. apply Hn. eapply fetch_crypto_keys, Hs.
  - rewrite (family_of_prefix "api.weather." Weather metric Hp eq_refl)
      by (simpl; tauto).
    simpl. rewrite api_datapoints_absent; [reflexivity|].
    apply not_Some_None. intros Hs. apply Hn. eapply fetch_weather_keys, Hs.
  - rewrite (family_of_prefix "api.github." Github metric Hp eq_refl)
      by (simpl; tauto).
    simpl. rewrite api_datapoints_absent; [reflexivity|].
    apply not_Some_None. intros Hs. apply Hn. eapply fetch_github_keys, Hs.
Qed.

(** C9 as stated fails: with X = "x.bitcoin", which is neither "bitcoin" nor
    "ethereum", the target api.crypto.X gets three datapoints, because only
    the last dot-segment of the target is looked up. *)
Lemma dotted_suffix_finds_default_coin :
  ~ In "x.bitcoin" default_coins
  /\ fst (query (http_world both_coins)
            {| range_from := jan1_midnight; range_to := jan1_0010;
               targets := ["api.crypto." +:+ "x.bitcoin"] |}
            (startup (http_world both_coins)))
     = Ok [entry_of "api.crypto.x.bitcoin"
             [(PyInt 41950, 1704067200000); (PyInt 41950, 1704067500000);
              (PyInt 41950, 1704067800000)]].
Proof.
  split.
  - simpl. intros [H | [H | []]]; discriminate.
  - vm_compute. reflexivity.
Qed.

(** C9, amended: a target dispatched to the price connector whose last
    dot-segment is neither "bitcoin" nor "ethereum" (and likewise a weather
    target whose last segment is none of temperature, wind_speed, humidity,
    and a repository target whose last segment is none of stars, forks,
    open_issues, watchers) gets the empty datapoints list, whatever the time
    range, the world and the state; so does its entry in any response. *)
Theorem outside_defaults_no_datapoints (w : world) (metric : string) :
  outside_defaults metric ->
  (forall a b ts st, fst (query_target w a b ts metric st) = Ok (entry_of metric []))
  /\ (forall req st resp st' (i : nat),
        query w req st = (Ok resp, st') ->
        targets req !! i = Some metric ->
        resp !! i = Some (entry_of metric [])).
Proof.
  intros H. split.
  - intros. apply outside_defaults_empty, H.
  - intros req st resp st' i Hq Hi.
    apply query_ok in Hq as (ts & _ & HF).
    destruct (Forall2_lookup_l _ _ _ _ _ HF Hi) as (e & He & st0 & Hp).
    rewrite outside_defaults_empty in Hp by exact H.
    injection Hp as <-. exact He.
Qed.

Lemma outside_defaults_no_datapoints_witness :
  fst (query_target (http_world both_coins) jan1_midnight jan1_0010
         [1704067200000; 1704067500000; 1704067800000] "api.crypto.dogecoin"
         fresh_state)
  = Ok (entry_of "api.crypto.dogecoin" []).
Proof.
  apply (outside_defaults_no_datapoints (http_world both_coins) "api.crypto.dogecoin").
  left. split; [reflexivity|].
  simpl. intros [H | [H | []]]; discriminate.
Defined.

(** ** Targets that yield nothing *)






(** ** An inverted range *)

Lemma timestamps_loop_eq (time_to current : datetime) (acc : list Z) :
  timestamps_loop time_to current acc =
  if current <=? time_to then
    match dt_add current five_minutes with
    | Ok next => timestamps_loop time_to next (acc ++ [epoch_millis current])
    | Raise e => Raise e
    end
  else Ok acc.
Proof.
  simp timestamps_loop.
  generalize (inspect (current <=? time_to)). intros [[|] Hle].
  - simp timestamps_loop.
    generalize (inspect (dt_add current five_minutes)). intros [[next|e] Hn].
    + simp timestamps_loop. rewrite Hle, Hn. simp timestamps_loop. reflexivity.
    + simp timestamps_loop. rewrite Hle, Hn. reflexivity.
  - simp timestamps_loop. rewrite Hle. reflexivity.
Qed.

Lemma generate_timestamps_inverted (time_from time_to : datetime) :
  time_to < time_from -> generate_timestamps time_from time_to = Ok [].
Proof.
  intros H. unfold generate_timestamps. rewrite timestamps_loop_eq.
  replace (time_from <=? time_to) with false by (symmetry; apply Z.leb_gt; lia).
  reflexivity.
Qed.

Lemma float_of_or_zero (v : option Q) : exists f, float_of_number (or_zero v) = Ok f.
Proof.
  destruct v as [q|]; simpl; [destruct (Qeq_bool q 0); simpl|]; eauto.
Qed.

Lemma es_datapoints_of_buckets (buckets : list histogram_bucket) :
  exists dps,
    es_datapoints (map (λ b, {| es_timestamp := bucket_key b;
                                es_value := or_zero (bucket_avg b) |}) buckets)
    = Ok dps.
Proof.
  induction buckets as [|b rest [dps IH]]; simpl; [eauto|].
  destruct (float_of_or_zero (bucket_avg b)) as [f ->]. simpl.
  rewrite IH. simpl. eauto.
Qed.

Lemma es_datapoints_of_fetch w index field a b st :
  exists dps, es_datapoints (fst (es_fetch_time_series w index field a b st)) = Ok dps.
Proof.
  unfold es_fetch_time_series.
  destruct (negb _); [simpl; eauto|].
  destruct (es_search _ _ _ _) as [[buckets|e] st1]; simpl; [|eauto].
  apply es_datapoints_of_buckets.
Qed.

Lemma family_of_sound metric :
  match family_of metric with
  | Weather => is_prefix "api.weather." metric = true
  | Crypto => is_prefix "api.crypto." metric = true
  | Github => is_prefix "api.github." metric = true
  | Postgres => is_prefix "postgres." metric = true
  | Elastic => is_prefix "elastic." metric = true
  | Unmatched => matches_no_family metric
  end.
Proof.
  unfold family_of, matches_no_family, family_prefixes.
  repeat match goal with
         | |- context [if is_prefix ?p metric then _ else _] =>
             destruct (is_prefix p metric) eqn:?
         end; auto.
  repeat constructor; assumption.
Qed.

(** With no timestamp, every target gets its entry, and an api.* target
    an entry without datapoints. *)
Lemma query_target_no_timestamps w a b metric st :
  exists e, fst (query_target w a b [] metric st) = Ok e
            /\ (is_prefix "api." metric = true -> datapoints e = []).
Proof.
  rewrite query_target_by_family. pose proof (family_of_sound metric) as Hf.
  destruct (family_of metric); simpl.
  - rewrite api_datapoints_no_timestamps. simpl. eauto.
  - rewrite api_datapoints_no_timestamps. simpl. eauto.
  - rewrite api_datapoints_no_timestamps. simpl. eauto.
  - eexists. split; [reflexivity|]. intros Hapi.
    rewrite (is_prefix_exclusive "api." "postgres." metric eq_refl eq_refl Hapi) in Hf.
    discriminate.
  - destruct (es_datapoints_of_fetch w "metrics-*" (last_segment metric) a b st)
      as [dps ->].
    simpl. eexists. split; [reflexivity|]. intros Hapi.
    rewrite (is_prefix_exclusive "api." "elastic." metric eq_refl eq_refl Hapi) in Hf.
    discriminate.
  - eauto.
Qed.

(** C10: when range.from is strictly later than range.to, no timestamp is
    generated; the request is answered all the same, with one entry per
    target, in order; and the entry of every api.* target has no
    datapoints. *)
Theorem inverted_range_answered_empty (w : world) (req : query_request) (st : state) :
  range_to req < range_from req ->
  generate_timestamps (range_from req) (range_to req) = Ok []
  /\ exists resp st',
       query w req st = (Ok resp, st')
       /\ length resp = length (targets req)
       /\ map target resp = targets req
       /\ Forall (λ e, is_prefix "api." (target e) = true -> datapoints e = []) resp.
Proof.
  intros H. pose proof (generate_timestamps_inverted _ _ H) as Hgen.
  split; [exact Hgen|].
  destruct (query_targets_all_ok w (range_from req) (range_to req) [] (targets req))
    with (results := @nil series) (st := st) as (resp & st' & Hq).
  { intros metric s _.
    destruct (query_target_no_timestamps w (range_from req) (range_to req) metric s)
      as (e & He & _). eauto. }
  assert (query w req st = (Ok resp, st')) as Hquery
    by (unfold query; rewrite Hgen; exact Hq).
  exists resp, st'. split; [exact Hquery|].
  pose proof (query_echoes_targets _ _ _ _ _ Hquery) as Hecho.
  split; [apply (f_equal (@length string)) in Hecho;
          rewrite length_map in Hecho; exact Hecho|].
  split; [exact Hecho|].
  apply query_ok in Hquery as (ts & Hts & HF).
  rewrite Hgen in Hts. injection Hts as <-.
  clear - HF. induction HF as [|metric e metrics entries [st0 He] _ IH];
    constructor; [|exact IH].
  intros Hapi.
  destruct (query_target_no_timestamps w (range_from req) (range_to req) metric st0)
    as (e' & He' & Hd).
  rewrite He in He'. injection He' as <-.
  apply Hd. rewrite (query_target_echo _ _ _ _ _ _ _ He) in Hapi. exact Hapi.
Qed.

Lemma inverted_range_answered_empty_witness :
  generate_timestamps jan1_0010 jan1_midnight = Ok []
  /\ exists resp st',
       query (http_world both_coins)
         {| range_from := jan1_0010; range_to := jan1_midnight;
            targets := ["api.crypto.bitcoin"; "postgres.cpu_usage"] |}
         fresh_state = (Ok resp, st')
       /\ length resp = 2%nat
       /\ map target resp = ["api.crypto.bitcoin"; "postgres.cpu_usage"]
       /\ Forall (λ e, is_prefix "api." (target e) = true -> datapoints e = []) resp.
Proof.
  apply (inverted_range_answered_empty (http_world both_coins)
           {| range_from := jan1_0010; range_to := jan1_midnight;
              targets := ["api.crypto.bitcoin"; "postgres.cpu_usage"] |}
           fresh_state).
  reflexivity.
Defined.

(** ** Rounding to binary64 *)


Lemma scaled_pos a d e : 0 < a -> 0 < d -> 0 < fst (scaled a d e) /\ 0 < snd (scaled a d e).
Proof.
  intros Ha Hd. unfold scaled. simpl.
  assert (0 < 2 ^ Z.max 0 (- e)) by (apply Z.pow_pos_nonneg; lia).
  assert (0 < 2 ^ Z.max 0 e) by (apply Z.pow_pos_nonneg; lia).
  nia.
Qed.

Lemma scaled_first a d :
  0 < a -> 0 < d ->
  let e1 := Z.log2 a - Z.log2 d - 53 in
  2 ^ 52 * snd (scaled a d e1) <= fst (scaled a d e1).
Proof.
  intros Ha Hd e1.
  destruct (Z.log2_spec a Ha) as [Hla _].
  destruct (Z.log2_spec d Hd) as [_ Hld].
  pose proof (Z.log2_nonneg a) as Hna. pose proof (Z.log2_nonneg d) as Hnd.
  unfold scaled. simpl.
  destruct (Z.le_gt_cases 0 e1) as [He | He].
  - rewrite (Z.max_r 0 e1), (Z.max_l 0 (- e1)) by lia.
    rewrite Z.mul_1_r.
    assert (2 ^ Z.log2 a = 2 ^ 52 * (2 ^ e1 * 2 ^ Z.succ (Z.log2 d))) as E.
    { rewrite <- !Z.pow_add_r by lia. f_equal. unfold e1. lia. }
    assert (0 < 2 ^ e1) by (apply Z.pow_pos_nonneg; lia).
    nia.
  - rewrite (Z.max_l 0 e1), (Z.max_r 0 (- e1)) by lia.
    rewrite Z.mul_1_r.
    assert (2 ^ Z.log2 a * 2 ^ (- e1) = 2 ^ 52 * 2 ^ Z.succ (Z.log2 d)) as E.
    { rewrite <- !Z.pow_add_r by lia. f_equal. unfold e1. lia. }
    assert (0 < 2 ^ (- e1)) by (apply Z.pow_pos_nonneg; lia).
    nia.
Qed.

Lemma scaled_succ a d e :
  0 < a -> 0 < d ->
  2 * (fst (scaled a d (e + 1)) * snd (scaled a d e))
  = fst (scaled a d e) * snd (scaled a d (e + 1)).
Proof.
  intros Ha Hd. unfold scaled. simpl.
  destruct (Z.le_gt_cases 0 e) as [He | He].
  - rewrite (Z.max_r 0 e), (Z.max_l 0 (- e)), (Z.max_r 0 (e + 1)),
      (Z.max_l 0 (- (e + 1))) by lia.
    rewrite Z.pow_add_r by lia. change (2 ^ 1) with 2. ring.
  - rewrite (Z.max_l 0 e), (Z.max_r 0 (- e)), (Z.max_l 0 (e + 1)),
      (Z.max_r 0 (- (e + 1))) by lia.
    replace (- e) with (- (e + 1) + 1) by lia.
    rewrite Z.pow_add_r by lia. change (2 ^ 1) with 2. ring.
Qed.

Lemma scaled_exponent a d :
  0 < a -> 0 < d ->
  2 ^ 52 * snd (scaled a d (exponent a d)) <= fst (scaled a d (exponent a d)).
Proof.
  intros Ha Hd. unfold exponent.
  set (e1 := Z.log2 a - Z.log2 d - 53).
  destruct (2 ^ 53 <=? _) eqn:E; [|apply scaled_first; assumption].
  apply Z.leb_le in E.
  destruct (scaled_pos a d e1 Ha Hd) as [HN1 HD1].
  destruct (scaled_pos a d (e1 + 1) Ha Hd) as [HN HD].
  pose proof (scaled_succ a d e1 Ha Hd) as Hs.
  assert (2 ^ 53 * snd (scaled a d e1) <= fst (scaled a d e1)) as H1.
  { pose proof (Z.mul_div_le (fst (scaled a d e1)) (snd (scaled a d e1)) HD1).
    nia. }
  change (2 ^ 53) with (2 * 2 ^ 52) in H1.
  clear E.
  generalize dependent (fst (scaled a d e1)). intros N1 HN1 H1.
  generalize dependent (snd (scaled a d e1)). intros D1 HD1 H1.
  generalize dependent (fst (scaled a d (e1 + 1))). intros N HN.
  generalize dependent (snd (scaled a d (e1 + 1))). intros D HD Hs.
  generalize dependent (2 ^ 52). intros P H1.
  assert (2 * P * D1 * D <= N1 * D) as H2 by nia.
  rewrite <- Hs in H2.
  apply Z.mul_le_mono_pos_r with (p := 2 * D1); lia.
Qed.






(** ** The generated timestamps *)

Lemma grid_from_S a n : grid_from a (S n) = a :: grid_from (a + five_minutes) n.
Proof.
  unfold grid_from. simpl. f_equal; [lia|].
  rewrite <- seq_shift, map_map. apply map_ext. intros k. lia.
Qed.

Lemma steps_between_S a b n :
  steps_between a b = S n -> a <= b /\ steps_between (a + five_minutes) b = n.
Proof.
  unfold steps_between, five_minutes. intros H.
  destruct (a <=? b) eqn:E; [|discriminate]. apply Z.leb_le in E.
  split; [exact E|]. injection H as H.
  destruct (a + 300000000 <=? b) eqn:E2.
  - apply Z.leb_le in E2.
    replace (b - a) with ((b - (a + 300000000)) + 1 * 300000000) in H by lia.
    rewrite Z.div_add in H by lia.
    assert (0 <= (b - (a + 300000000)) / 300000000) by (apply Z.div_pos; lia).
    lia.
  - apply Z.leb_gt in E2. rewrite Z.div_small in H by lia. simpl in H. lia.
Qed.

Lemma steps_between_0 a b : steps_between a b = 0%nat -> b < a.
Proof.
  unfold steps_between. destruct (a <=? b) eqn:E; [discriminate|].
  intros _. apply Z.leb_gt in E. exact E.
Qed.

Lemma timestamps_loop_grid time_to n : forall current acc ts,
  steps_between current time_to = n ->
  timestamps_loop time_to current acc = Ok ts ->
  ts = acc ++ map epoch_millis (grid_from current n).
Proof.
  induction n as [|n IH]; intros current acc ts Hn Hloop;
    rewrite timestamps_loop_eq in Hloop.
  - apply steps_between_0 in Hn.
    replace (current <=? time_to) with false in Hloop
      by (symmetry; apply Z.leb_gt; exact Hn).
    injection Hloop as <-. simpl. rewrite app_nil_r. reflexivity.
  - apply steps_between_S in Hn as [Hle Hn].
    replace (current <=? time_to) with true in Hloop
      by (symmetry; apply Z.leb_le; exact Hle).
    unfold dt_add in Hloop.
    destruct (_ && _); [|discriminate].
    apply (IH _ _ _ Hn) in Hloop. rewrite Hloop, grid_from_S, <- app_assoc.
    reflexivity.
Qed.

Lemma generate_timestamps_grid a b ts :
  generate_timestamps a b = Ok ts -> ts = map epoch_millis (grid a b).
Proof.
  intros H. apply (timestamps_loop_grid b (steps_between a b) a [] ts eq_refl H).
Qed.

(** With five minutes of room after [range.to], the loop does not raise. *)
Lemma timestamps_loop_returns time_to n : forall current acc,
  steps_between current time_to = n ->
  dt_min <= current -> time_to + five_minutes <= dt_max ->
  exists ts, timestamps_loop time_to current acc = Ok ts.
Proof.
  induction n as [|n IH]; intros current acc Hn Hlo Hhi;
    rewrite timestamps_loop_eq.
  - apply steps_between_0 in Hn.
    replace (current <=? time_to) with false by (symmetry; apply Z.leb_gt; exact Hn).
    eauto.
  - apply steps_between_S in Hn as [Hle Hn].
    replace (current <=? time_to) with true by (symmetry; apply Z.leb_le; exact Hle).
    unfold dt_add.
    replace (dt_min <=? current + five_minutes) with true
      by (symmetry; apply Z.leb_le; unfold five_minutes; lia).
    replace (current + five_minutes <=? dt_max) with true
      by (symmetry; apply Z.leb_le; lia).
    simpl. apply IH; [exact Hn | unfold five_minutes; lia | exact Hhi].
Qed.

Lemma generate_timestamps_returns a b :
  dt_min <= a -> b + five_minutes <= dt_max ->
  exists ts, generate_timestamps a b = Ok ts.
Proof. intros. eapply timestamps_loop_returns; eauto. Qed.

Lemma grid_from_bounds a n x :
  In x (grid_from a n) -> a <= x <= a + (Z.of_nat n - 1) * five_minutes.
Proof.
  unfold grid_from, five_minutes. intros H.
  apply in_map_iff in H as (k & <- & Hk). apply in_seq in Hk. lia.
Qed.

Lemma steps_between_last a b n :
  steps_between a b = S n -> a + Z.of_nat n * five_minutes <= b.
Proof.
  unfold steps_between, five_minutes. destruct (a <=? b) eqn:E; [|discriminate].
  apply Z.leb_le in E. intros [= <-].
  rewrite Z2Nat.id by (apply Z.div_pos; lia).
  pose proof (Z.mul_div_le (b - a) 300000000 ltac:(lia)). lia.
Qed.



(** ** Datapoints of the API targets *)

Lemma replicate_value_timestamps jitter value : forall ts dps,
  replicate_value jitter value ts = Ok dps -> map snd dps = ts.
Proof.
  induction ts as [|t ts IH]; intros dps H; simpl in H.
  - injection H as <-. reflexivity.
  - destruct (jitter value t) as [v|]; simpl in H; [|discriminate].
    destruct (replicate_value jitter value ts) as [rest|]; simpl in H; [|discriminate].
    injection H as <-. simpl. f_equal. apply IH. reflexivity.
Qed.






(** ** When the handler answers *)

Lemma replicate_value_ok jitter value ts :
  (forall t, exists v, jitter value t = Ok v) ->
  exists dps, replicate_value jitter value ts = Ok dps.
Proof.
  intros Hj. induction ts as [|t ts [dps IH]]; simpl; [eauto|].
  destruct (Hj t) as [v ->]. rewrite IH. simpl. eauto.
Qed.

Lemma add_int_ok n k : exists v, add_int n k = Ok v.
Proof. destruct n; simpl; eauto. Qed.

Lemma api_datapoints_ok jitter (data : gmap string json) name ts :
  (forall v t, data !! name = Some v -> exists r, jitter v t = Ok r) ->
  exists dps, api_datapoints jitter data name ts = Ok dps.
Proof.
  intros Hj. unfold api_datapoints.
  destruct (data !! name) as [v|]; [|eauto].
  apply replicate_value_ok. intros t. apply Hj. reflexivity.
Qed.

Lemma query_target_ok w a b ts metric st :
  numeric_upstream w -> exists e, fst (query_target w a b ts metric st) = Ok e.
Proof.
  intros Hnum. rewrite query_target_by_family.
  destruct (family_of metric); simpl.
  - destruct (api_datapoints_ok weather_jitter (fst (fetch_weather_data w st))
                (last_segment metric) ts) as [dps ->]; [|simpl; eauto].
    intros v t Hv. apply Hnum in Hv as (n & f & -> & Hf).
    unfold weather_jitter, py_add_float, add_float. simpl. rewrite Hf. simpl. eauto.
  - destruct (api_datapoints_ok crypto_jitter
                (fst (fetch_crypto_prices w default_coins st))
                (last_segment metric) ts) as [dps ->]; [|simpl; eauto].
    intros v t Hv. apply Hnum in Hv as (n & ->). apply add_int_ok.
  - destruct (api_datapoints_ok github_jitter
                (fst (fetch_github_stats w default_repo st))
                (last_segment metric) ts) as [dps ->]; [|simpl; eauto].
    intros v t Hv. apply Hnum in Hv as (n & ->). apply add_int_ok.
  - eauto.
  - destruct (es_datapoints_of_fetch w "metrics-*" (last_segment metric) a b st)
      as [dps ->].
    simpl. eauto.
  - eauto.
Qed.

(** With five minutes of room after [range.to] and numbers from upstream,
    the handler answers, with one entry per target. *)
Lemma query_answers_with_room (w : world) (req : query_request) (st : state) :
  dt_min <= range_from req -> range_to req + five_minutes <= dt_max ->
  numeric_upstream w ->
  exists resp st', query w req st = (Ok resp, st')
                   /\ map target resp = targets req.
Proof.
  intros Hlo Hhi Hnum.
  destruct (generate_timestamps_returns _ _ Hlo Hhi) as [ts Hgen].
  destruct (query_targets_all_ok w (range_from req) (range_to req) ts (targets req))
    with (results := @nil series) (st := st) as (resp & st' & Hq).
  { intros metric s _. apply query_target_ok, Hnum. }
  assert (query w req st = (Ok resp, st')) as Hquery
    by (unfold query; rewrite Hgen; exact Hq).
  exists resp, st'. split; [exact Hquery|].
  eapply query_echoes_targets, Hquery.
Qed.

(** ** The end of the calendar *)

(** Any range that starts, with valid bounds, in the last five minutes of
    the calendar makes the loop overflow on its first step. *)
Lemma generate_timestamps_overflows (time_from time_to : datetime) :
  dt_max - five_minutes < time_from -> time_from <= time_to ->
  generate_timestamps time_from time_to = Raise OverflowError.
Proof.
  intros Hlate Hle. unfold generate_timestamps. rewrite timestamps_loop_eq.
  replace (time_from <=? time_to) with true by (symmetry; apply Z.leb_le; exact Hle).
  unfold dt_add.
  replace (time_from + five_minutes <=? dt_max) with false
    by (symmetry; apply Z.leb_gt; lia).
  rewrite andb_false_r. reflexivity.
Qed.

(** C1, at a request the code fails on: for a range inside the last five
    minutes of year 9999 the loop that generates the timestamps steps past
    the largest datetime, so the handler raises [OverflowError] instead of
    answering with an array, whatever the targets, the world and the state. *)
Theorem query_overflows_in_last_minutes (w : world) (metrics : list string)
    (st : state) :
  dt_valid last_minute /\ dt_valid last_half_minute
  /\ query w {| range_from := last_minute; range_to := last_half_minute;
                targets := metrics |} st
     = (Raise OverflowError, st).
Proof.
  split; [|split]; [unfold dt_valid, dt_min, dt_max, last_minute; lia
                   |unfold dt_valid, dt_min, dt_max, last_half_minute; lia|].
  unfold query. simpl.
  assert (generate_timestamps last_minute last_half_minute = Raise OverflowError)
    as -> by (unfold generate_timestamps; rewrite timestamps_loop_eq; reflexivity).
  reflexivity.
Qed.

(** * Further properties *)

(** ** Whole seconds convert exactly *)

Lemma exponent_nonpos (k p : Z) :
  0 < k < 2 ^ 53 -> 0 < p -> exponent (k * p) p <= 0.
Proof.
  intros Hk Hp.
  destruct (Z.le_gt_cases (exponent (k * p) p) 0) as [H | H]; [exact H|].
  pose proof (scaled_exponent (k * p) p ltac:(nia) Hp) as Hs.
  unfold scaled in Hs. simpl in Hs.
  rewrite (Z.max_r 0 (exponent (k * p) p)), (Z.max_l 0 (- exponent (k * p) p)) in Hs
    by lia.
  change (2 ^ 0) with 1 in Hs.
  assert (2 <= 2 ^ exponent (k * p) p) as H2.
  { change 2 with (2 ^ 1) at 1. apply Z.pow_le_mono_r; lia. }
  change (2 ^ 53) with (2 * 2 ^ 52) in Hk.
  assert (0 < 2 ^ 52) as HT by reflexivity.
  generalize dependent (2 ^ exponent (k * p) p). intros P Hs HP.
  generalize dependent (2 ^ 52). intros T Hk Hs HT.
  assert (k * p < 2 * T * p) by nia.
  assert (T * p * 2 <= T * p * P) by (apply Z.mul_le_mono_nonneg_l; nia).
  nia.
Qed.

Lemma round_double_integer (x : Q) (k : Z) :
  (x == inject_Z k)%Q -> Z.abs k < 2 ^ 53 -> (round_double x == inject_Z k)%Q.
Proof.
  intros Hx Hk. destruct x as [n p].
  assert (n = k * Zpos p) as Hn
    by (unfold Qeq, inject_Z in Hx; simpl in Hx; lia).
  unfold round_double. simpl Qnum. simpl Qden.
  destruct (n =? 0) eqn:E0.
  - apply Z.eqb_eq in E0. assert (k = 0) by nia. subst k. reflexivity.
  - apply Z.eqb_neq in E0. assert (k <> 0) as Hk0 by nia.
    assert (Z.abs n = Z.abs k * Zpos p) as Ha by (subst n; rewrite Z.abs_mul; lia).
    rewrite Ha.
    pose proof (exponent_nonpos (Z.abs k) (Zpos p) ltac:(lia) ltac:(lia)) as He.
    set (e := exponent (Z.abs k * Zpos p) (Zpos p)) in *. clearbody e.
    unfold scaled. simpl fst. simpl snd.
    rewrite (Z.max_l 0 e), (Z.max_r 0 (- e)) by lia.
    change (2 ^ 0) with 1. rewrite Z.mul_1_r.
    assert (0 < 2 ^ (- e)) as HP by (apply Z.pow_pos_nonneg; lia).
    replace (Z.abs k * Zpos p * 2 ^ (- e)) with (Z.abs k * 2 ^ (- e) * Zpos p) by ring.
    rewrite Z.mod_mul, Z.div_mul by lia.
    replace (Zpos p <? 2 * 0) with false by (symmetry; apply Z.ltb_ge; lia).
    replace (Zpos p =? 2 * 0) with false by (symmetry; apply Z.eqb_neq; lia).
    simpl orb. cbv iota.
    assert (Z.sgn n = Z.sgn k) as ->
      by (subst n; rewrite Z.sgn_mul; simpl; lia).
    unfold pow2. destruct (0 <=? e) eqn:E.
    + apply Z.leb_le in E. assert (e = 0) by lia. subst e.
      change (2 ^ (- 0)) with 1. change (2 ^ 0) with 1.
      unfold Qeq, Qmult, inject_Z. simpl.
      pose proof (Z.sgn_abs k). nia.
    + unfold Qeq, Qmult, inject_Z. simpl.
      rewrite Pos.mul_1_l, Z2Pos.id by exact HP.
      pose proof (Z.sgn_abs k).
      generalize dependent (2 ^ (- e)). intros P HP. nia.
Qed.

Lemma Qtrunc_integer (y : Q) (k : Z) : (y == inject_Z k)%Q -> Qtrunc y = k.
Proof.
  destruct y as [n p]. unfold Qeq, inject_Z, Qtrunc. simpl. intros H.
  rewrite Z.mul_1_r in H. subst n. apply Z.quot_mul. lia.
Qed.

Lemma epoch_millis_of_seconds (s : Z) :
  Z.abs s * 1000 < 2 ^ 53 -> epoch_millis (s * 1000000) = s * 1000.
Proof.
  intros Hs. unfold epoch_millis, timestamp.
  assert (round_double (s * 1000000 # 1000000) == inject_Z s)%Q as HX.
  { apply round_double_integer; [|lia].
    unfold Qeq, inject_Z. simpl. lia. }
  apply Qtrunc_integer. apply round_double_integer.
  - rewrite HX. unfold Qeq, Qmult, inject_Z. simpl. lia.
  - rewrite Z.abs_mul. simpl Z.abs. exact Hs.
Qed.

Lemma epoch_millis_exact_on_whole_seconds_aux (dt : datetime) :
  dt_valid dt -> whole_second dt -> epoch_millis dt = dt / 1000.
Proof.
  unfold dt_valid, dt_min, dt_max, whole_second. intros Hv Hw.
  assert (exists s, dt = s * 1000000) as [s ->].
  { exists (dt / 1000000).
    pose proof (Z.div_mod dt 1000000 ltac:(lia)) as Hd. lia. }
  rewrite epoch_millis_of_seconds.
  - replace (s * 1000000) with (s * 1000 * 1000) by ring.
    rewrite Z.div_mul by lia. reflexivity.
  - change (2 ^ 53) with 9007199254740992. lia.
Qed.

(** X1: a valid datetime without a fraction of a second converts to exactly
    its number of seconds times 1000: on such inputs the floating-point
    computation [int(dt.timestamp() * 1000)] loses nothing. *)
Theorem epoch_millis_exact_on_whole_seconds (dt : datetime) :
  dt_valid dt -> whole_second dt -> epoch_millis dt = dt / 1000.
Proof. apply epoch_millis_exact_on_whole_seconds_aux. Qed.

Lemma epoch_millis_exact_on_whole_seconds_witness :
  epoch_millis jan1_midnight = jan1_midnight / 1000.
Proof.
  apply (epoch_millis_exact_on_whole_seconds jan1_midnight).
  - unfold dt_valid, dt_min, dt_max, jan1_midnight. lia.
  - reflexivity.
Defined.

(** ** The timestamp loop in closed form *)




Lemma grid_from_lookup a n (i : nat) :
  (i < n)%nat -> grid_from a n !! i = Some (a + Z.of_nat i * five_minutes).
Proof.
  intros Hi. unfold grid_from. rewrite list_lookup_fmap.
  rewrite lookup_seq_lt by exact Hi. reflexivity.
Qed.

(** X3: when the loop returns, for from <= to it returns
    (to - from) div 5 min + 1 timestamps, the i-th being the conversion of
    from + i * 5 min, and for from > to none. *)
Theorem generated_timestamps_count (time_from time_to : datetime) (ts : list Z) :
  generate_timestamps time_from time_to = Ok ts ->
  (time_to < time_from -> ts = [])
  /\ (time_from <= time_to ->
      Z.of_nat (length ts) = (time_to - time_from) / five_minutes + 1
      /\ forall i : nat, (i < length ts)%nat ->
           ts !! i = Some (epoch_millis (time_from + Z.of_nat i * five_minutes))).
Proof.
  intros H. apply generate_timestamps_grid in H. subst ts. unfold grid. split.
  - intros Hlt. unfold steps_between.
    replace (time_from <=? time_to) with false by (symmetry; apply Z.leb_gt; exact Hlt).
    reflexivity.
  - intros Hle.
    assert (length (map epoch_millis (grid_from time_from (steps_between time_from time_to)))
            = steps_between time_from time_to) as Hlen
      by (unfold grid_from; rewrite !length_map, length_seq; reflexivity).
    rewrite Hlen. split.
    + unfold steps_between.
      replace (time_from <=? time_to) with true by (symmetry; apply Z.leb_le; exact Hle).
      rewrite Nat2Z.inj_succ, Z2Nat.id; [lia|].
      apply Z.div_pos; unfold five_minutes; lia.
    + intros i Hi.
      change (map epoch_millis ?l) with (epoch_millis <$> l).
      rewrite list_lookup_fmap, grid_from_lookup by exact Hi. reflexivity.
Qed.

Lemma generated_timestamps_count_witness :
  Z.of_nat (length [1704067200000; 1704067500000; 1704067800000])
  = (jan1_0010 - jan1_midnight) / five_minutes + 1.
Proof.
  apply (generated_timestamps_count jan1_midnight jan1_0010
           [1704067200000; 1704067500000; 1704067800000]).
  - vm_compute. reflexivity.
  - unfold jan1_midnight, jan1_0010. lia.
Defined.

(** ** Jitter *)

Lemma py_hash_int_small (t : Z) :
  Z.abs t < 2 ^ 61 - 1 -> t <> -1 -> py_hash_int t = t.
Proof.
  intros Ht Hm. unfold py_hash_int.
  rewrite Z.mod_small by lia.
  replace (Z.sgn t * Z.abs t) with t by (pose proof (Z.sgn_abs t); lia).
  replace (t =? -1) with false by (symmetry; apply Z.eqb_neq; exact Hm).
  reflexivity.
Qed.

Lemma grid_millis_whole a b x :
  dt_valid a -> dt_valid b -> whole_second a -> In x (grid a b) ->
  exists s, epoch_millis x = s * 1000 /\ Z.abs (s * 1000) < 2 ^ 61 - 1.
Proof.
  intros Ha Hb Hw Hx. unfold grid in Hx.
  assert (dt_valid x /\ whole_second x) as [Hvx Hwx].
  { destruct (steps_between a b) as [|n] eqn:E; [destruct Hx|].
    apply steps_between_last in E.
    pose proof (grid_from_bounds _ _ _ Hx) as Hbx.
    unfold grid_from in Hx. apply in_map_iff in Hx as (k & <- & _).
    split.
    - unfold dt_valid, five_minutes in *.
      replace (Z.of_nat (S n) - 1) with (Z.of_nat n) in Hbx by lia. lia.
    - unfold whole_second, five_minutes in *.
      replace (a + Z.of_nat k * 300000000)
        with (a + (Z.of_nat k * 300) * 1000000) by ring.
      rewrite Z.mod_add by lia. exact Hw. }
  exists (x / 1000000).
  rewrite epoch_millis_exact_on_whole_seconds_aux by assumption.
  unfold dt_valid, dt_min, dt_max, whole_second in *.
  pose proof (Z.div_mod x 1000000 ltac:(lia)) as Hd.
  change (2 ^ 61 - 1) with 2305843009213693951.
  split; [|lia].
  replace x with (x / 1000000 * 1000 * 1000) at 1 by lia.
  apply Z.div_mul. lia.
Qed.

Lemma replicate_value_values jitter value (c : result number) : forall ts dps,
  (forall t, In t ts -> jitter value t = c) ->
  replicate_value jitter value ts = Ok dps ->
  Forall (λ dp, c = Ok (fst dp)) dps.
Proof.
  induction ts as [|t ts IH]; intros dps Hc H; simpl in H.
  - injection H as <-. constructor.
  - rewrite (Hc t (or_introl eq_refl)) in H.
    destruct c as [r|]; simpl in H; [|discriminate].
    destruct (replicate_value jitter value ts) as [rest|] eqn:Erest; simpl in H;
      [|discriminate].
    injection H as <-. constructor; [reflexivity|].
    apply IH; [|reflexivity].
    intros t' Ht'. apply Hc. right. exact Ht'.
Qed.

Lemma jitter_on_whole_millis (t s : Z) (v : json) :
  t = s * 1000 -> Z.abs t < 2 ^ 61 - 1 ->
  weather_jitter v t = constant_offset Weather v
  /\ crypto_jitter v t = constant_offset Crypto v
  /\ github_jitter v t = constant_offset Github v.
Proof.
  intros Ht Hb.
  assert (py_hash_int t = t) as Hh by (apply py_hash_int_small; lia).
  unfold weather_jitter, crypto_jitter, github_jitter, constant_offset.
  rewrite Hh.
  replace (t mod 10) with 0
    by (subst t; replace (s * 1000) with (s * 100 * 10) by ring;
        symmetry; apply Z.mod_mul; lia).
  replace (t mod 100) with 0
    by (subst t; replace (s * 1000) with (s * 10 * 100) by ring;
        symmetry; apply Z.mod_mul; lia).
  replace (t mod 20) with 0
    by (subst t; replace (s * 1000) with (s * 50 * 20) by ring;
        symmetry; apply Z.mod_mul; lia).
  repeat split.
Qed.

(** X4: for a range whose range.from has no fraction of a second, the
    jitter is no jitter: every generated timestamp is a multiple of 1000, so
    [hash(ts) % 100], [% 20] and [% 10] are all 0, and every datapoint of an
    API target carries the same value, the upstream value minus 50 (price),
    minus 10 (repository) or minus 0.5 (weather). *)
Theorem whole_second_jitter_is_constant (w : world) (a b : datetime) (ts : list Z)
    (metric : string) (st : state) (v : json) (e : series) :
  dt_valid a -> dt_valid b -> whole_second a ->
  generate_timestamps a b = Ok ts ->
  connector_value w metric st = Some v ->
  fst (query_target w a b ts metric st) = Ok e ->
  map snd (datapoints e) = ts
  /\ Forall (λ dp, constant_offset (family_of metric) v = Ok (fst dp)) (datapoints e).
Proof.
  intros Ha Hb Hw Hgen Hv He.
  apply generate_timestamps_grid in Hgen.
  assert (forall t, In t ts ->
            weather_jitter v t = constant_offset Weather v
            /\ crypto_jitter v t = constant_offset Crypto v
            /\ github_jitter v t = constant_offset Github v) as Hj.
  { intros t Ht. subst ts. apply in_map_iff in Ht as (x & <- & Hx).
    destruct (grid_millis_whole a b x Ha Hb Hw Hx) as (s & Hs & Hbound).
    apply (jitter_on_whole_millis _ s); [exact Hs | rewrite Hs; exact Hbound]. }
  clear Hgen.
  rewrite query_target_by_family in He. unfold connector_value in Hv.
  destruct (family_of metric); simpl in He; try discriminate;
    apply fmap_entry_ok in He as (dps & Hd & ->); unfold api_datapoints in Hd;
    rewrite Hv in Hd; simpl;
    (split; [eapply replicate_value_timestamps, Hd|]).
  - apply (replicate_value_values weather_jitter v (constant_offset Weather v) ts);
      [|exact Hd]. intros t Ht. apply (Hj t Ht).
  - apply (replicate_value_values crypto_jitter v (constant_offset Crypto v) ts);
      [|exact Hd]. intros t Ht. apply (Hj t Ht).
  - apply (replicate_value_values github_jitter v (constant_offset Github v) ts);
      [|exact Hd]. intros t Ht. apply (Hj t Ht).
Qed.

Lemma whole_second_jitter_is_constant_witness :
  Forall (λ dp, constant_offset Crypto (JNum (PyInt 42000)) = Ok (fst dp))
    [(PyInt 41950, 1704067200000); (PyInt 41950, 1704067500000);
     (PyInt 41950, 1704067800000)].
Proof.
  refine (proj2 (whole_second_jitter_is_constant (http_world both_coins)
                   jan1_midnight jan1_0010
                   [1704067200000; 1704067500000; 1704067800000]
                   "api.crypto.bitcoin" fresh_state (JNum (PyInt 42000))
                   (entry_of "api.crypto.bitcoin"
                      [(PyInt 41950, 1704067200000); (PyInt 41950, 1704067500000);
                       (PyInt 41950, 1704067800000)])
                   _ _ _ _ _ _)).
  - unfold dt_valid, dt_min, dt_max, jan1_midnight. lia.
  - unfold dt_valid, dt_min, dt_max, jan1_0010. lia.
  - reflexivity.
  - vm_compute. reflexivity.
  - vm_compute. reflexivity.
  - vm_compute. reflexivity.
Defined.

Lemma replicate_value_bounded (span modulus p : Z) jitter : forall ts,
  0 < modulus -> modulus = 2 * span ->
  (forall t, jitter (JNum (PyInt p)) t
             = py_add_int (JNum (PyInt p)) (py_hash_int t mod modulus - span)) ->
  exists dps,
    replicate_value jitter (JNum (PyInt p)) ts = Ok dps
    /\ map snd dps = ts
    /\ Forall (λ dp, exists r, fst dp = PyInt r /\ p - span <= r < p + span) dps.
Proof.
  intros ts Hm Hs Hj. induction ts as [|t ts (dps & Hd & Hts & Hall)]; simpl.
  - exists []. repeat split. constructor.
  - rewrite Hj, Hd. simpl.
    eexists. split; [reflexivity|]. simpl. split; [f_equal; exact Hts|].
    constructor; [|exact Hall].
    eexists. split; [reflexivity|]. simpl.
    pose proof (Z.mod_pos_bound (py_hash_int t) modulus Hm). lia.
Qed.

(** X5: for a price or repository target whose connector returned the int
    p, the entry is produced for any list of timestamps, one datapoint per
    timestamp in order, and every value is an int r with
    p - 50 <= r < p + 50 (price) or p - 10 <= r < p + 10 (repository). *)
Theorem integer_jitter_bounded (w : world) (a b : datetime) (ts : list Z)
    (metric : string) (st : state) (p : Z) :
  family_of metric = Crypto \/ family_of metric = Github ->
  connector_value w metric st = Some (JNum (PyInt p)) ->
  exists e,
    fst (query_target w a b ts metric st) = Ok e
    /\ map snd (datapoints e) = ts
    /\ Forall (λ dp, exists r, fst dp = PyInt r
                               /\ p - jitter_span (family_of metric) <= r
                                  < p + jitter_span (family_of metric))
         (datapoints e).
Proof.
  intros Hf Hv. rewrite query_target_by_family. unfold connector_value in Hv.
  destruct Hf as [Hf | Hf]; rewrite Hf in *; simpl; unfold api_datapoints;
    rewrite Hv.
  - destruct (replicate_value_bounded 50 100 p crypto_jitter ts)
      as (dps & -> & Hts & Hall); [lia | lia | reflexivity|].
    simpl. eexists. split; [reflexivity|]. split; assumption.
  - destruct (replicate_value_bounded 10 20 p github_jitter ts)
      as (dps & -> & Hts & Hall); [lia | lia | reflexivity|].
    simpl. eexists. split; [reflexivity|]. split; assumption.
Qed.

Lemma integer_jitter_bounded_witness :
  exists e,
    fst (query_target (http_world both_coins) jan1_midnight jan1_0010 [17; 123456789]
           "api.crypto.ethereum" fresh_state) = Ok e
    /\ map snd (datapoints e) = [17; 123456789]
    /\ Forall (λ dp, exists r, fst dp = PyInt r /\ 2200 - 50 <= r < 2200 + 50)
         (datapoints e).
Proof.
  apply (integer_jitter_bounded (http_world both_coins) jan1_midnight jan1_0010
           [17; 123456789] "api.crypto.ethereum" fresh_state 2200).
  - left. reflexivity.
  - vm_compute. reflexivity.
Defined.

(** ** What the API connectors return *)

Lemma delivers_or_unusable (o : http_outcome) :
  unusable o \/ exists data, delivers o data.
Proof.
  destruct o as [e|code [data|]]; simpl; auto.
  destruct (Z_le_dec 400 code), (Z_lt_dec code 600); auto;
    right; exists data, code; split; try reflexivity; lia.
Qed.

Lemma weather_of_delivered o data :
  delivers o data ->
  weather_of (outcome_response o) =
  (temperature ← getitem data "current" ≫= (λ c, getitem c "temperature_2m");
   wind_speed ← getitem data "current" ≫= (λ c, getitem c "wind_speed_10m");
   humidity ← getitem data "current" ≫= (λ c, getitem c "relative_humidity_2m");
   Ok (<["temperature" := temperature]>
         (<["wind_speed" := wind_speed]>
            (<["humidity" := humidity]> (∅ : gmap string json))))).
Proof.
  intros (code & -> & Hcode). unfold weather_of. simpl.
  rewrite raise_for_status_fine by assumption. reflexivity.
Qed.

Lemma github_of_delivered o data :
  delivers o data ->
  github_of (outcome_response o) =
  (stars ← getitem data "stargazers_count";
   forks ← getitem data "forks_count";
   open_issues ← getitem data "open_issues_count";
   watchers ← getitem data "watchers_count";
   Ok (<["stars" := stars]>
         (<["forks" := forks]>
            (<["open_issues" := open_issues]>
               (<["watchers" := watchers]> (∅ : gmap string json)))))).
Proof.
  intros (code & -> & Hcode). unfold github_of. simpl.
  rewrite raise_for_status_fine by assumption. reflexivity.
Qed.

(** X6: the weather connector is all or nothing. Either it returns the
    empty mapping and has printed its error message, or the response was a
    usable JSON document whose [current] object holds the three fields, and
    it returns exactly temperature, wind_speed and humidity bound to
    temperature_2m, wind_speed_10m and relative_humidity_2m, printing
    nothing. *)
Theorem weather_all_or_nothing (w : world) (st : state) :
  let get := EvHttpGet (API_SOURCES "weather") weather_params 10 in
  fetch_weather_data w st = (∅, log (EvPrint "Weather API error") (log get st))
  \/ exists data current t ws h,
       delivers (http_get w (now st) (API_SOURCES "weather") weather_params) data
       /\ getitem data "current" = Ok current
       /\ getitem current "temperature_2m" = Ok t
       /\ getitem current "wind_speed_10m" = Ok ws
       /\ getitem current "relative_humidity_2m" = Ok h
       /\ fetch_weather_data w st
          = (<["temperature" := t]> (<["wind_speed" := ws]> (<["humidity" := h]> ∅)),
             log get st).
Proof.
  intros get. rewrite fetch_weather_data_unfold, requests_get_fst. simpl.
  destruct (delivers_or_unusable
              (http_get w (now st) (API_SOURCES "weather") weather_params))
    as [Hu | [data Hd]].
  - destruct (weather_of_unusable _ Hu) as [e ->]. left. reflexivity.
  - rewrite (weather_of_delivered _ _ Hd).
    destruct (getitem data "current") as [current|] eqn:Ec; simpl; [|left; reflexivity].
    destruct (getitem current "temperature_2m") as [t|] eqn:Et; simpl;
      [|left; reflexivity].
    destruct (getitem current "wind_speed_10m") as [ws|] eqn:Ews; simpl;
      [|left; reflexivity].
    destruct (getitem current "relative_humidity_2m") as [h|] eqn:Eh; simpl;
      [|left; reflexivity].
    right. exists data, current, t, ws, h. repeat split; assumption.
Qed.

(** X7: the repository connector is all or nothing as well: the empty
    mapping with its error message printed, or exactly stars, forks,
    open_issues and watchers bound to the four [*_count] fields of a usable
    response. *)
Theorem github_all_or_nothing (w : world) (repo : string) (st : state) :
  let url := API_SOURCES "github" +:+ "/" +:+ repo in
  let get := EvHttpGet url [] 10 in
  fetch_github_stats w repo st = (∅, log (EvPrint "GitHub API error") (log get st))
  \/ exists data s f i wa,
       delivers (http_get w (now st) url []) data
       /\ getitem data "stargazers_count" = Ok s
       /\ getitem data "forks_count" = Ok f
       /\ getitem data "open_issues_count" = Ok i
       /\ getitem data "watchers_count" = Ok wa
       /\ fetch_github_stats w repo st
          = (<["stars" := s]> (<["forks" := f]>
               (<["open_issues" := i]> (<["watchers" := wa]> ∅))),
             log get st).
Proof.
  intros url get. rewrite fetch_github_stats_unfold, requests_get_fst. simpl.
  fold url.
  destruct (delivers_or_unusable (http_get w (now st) url [])) as [Hu | [data Hd]].
  - destruct (github_of_unusable _ Hu) as [e ->]. left. reflexivity.
  - rewrite (github_of_delivered _ _ Hd).
    destruct (getitem data "stargazers_count") as [s|] eqn:Es; simpl;
      [|left; reflexivity].
    destruct (getitem data "forks_count") as [f|] eqn:Ef; simpl; [|left; reflexivity].
    destruct (getitem data "open_issues_count") as [i|] eqn:Ei; simpl;
      [|left; reflexivity].
    destruct (getitem data "watchers_count") as [wa|] eqn:Ewa; simpl;
      [|left; reflexivity].
    right. exists data, s, f, i, wa. repeat split; assumption.
Qed.

Lemma usd_prices_object (obj : gmap string json) (coins : list string) :
  (forall coin c, coin ∈ coins -> obj !! coin = Some c ->
     exists v, getitem c "usd" = Ok v) ->
  forall acc, exists d,
    usd_prices (JObj obj) coins acc = Ok d
    /\ forall k, d !! k = match (if bool_decide (k ∈ coins) then price_of obj k
                                else None) with
                          | Some v => Some v
                          | None => acc !! k
                          end.
Proof.
  induction coins as [|coin rest IH]; intros Hall acc;
    cbn [usd_prices contains mbind result_bind].
  - exists acc. split; [reflexivity|]. intros k.
    rewrite bool_decide_eq_false_2 by apply not_elem_of_nil. reflexivity.
  - assert (forall x y, x ∈ rest -> obj !! x = Some y ->
              exists v, getitem y "usd" = Ok v) as Hrest
      by (intros x y Hx; apply Hall; apply elem_of_cons; auto).
    destruct (obj !! coin) as [c|] eqn:Ec.
    + rewrite bool_decide_eq_true_2 by eauto.
      cbn [getitem mbind result_bind]. rewrite Ec. cbn [mbind result_bind].
      destruct (Hall coin c ltac:(apply elem_of_cons; auto) Ec) as [v Hv].
      rewrite Hv. cbn [mbind result_bind].
      destruct (IH Hrest (<[coin := v]> acc)) as (d & Hd & Hk).
      exists d. split; [exact Hd|]. intros k. rewrite Hk.
      destruct (decide (k ∈ rest)) as [Hin | Hnin].
      * rewrite !bool_decide_eq_true_2 by (try apply elem_of_cons; auto).
        destruct (price_of obj k) eqn:Ep; [reflexivity|].
        rewrite lookup_insert. case_decide; [|reflexivity].
        subst k. unfold price_of in Ep. rewrite Ec, Hv in Ep. discriminate.
      * rewrite (bool_decide_eq_false_2 (k ∈ rest)) by exact Hnin.
        rewrite lookup_insert. case_decide.
        -- subst k. rewrite bool_decide_eq_true_2 by (apply elem_of_cons; auto).
           unfold price_of. rewrite Ec, Hv. reflexivity.
        -- rewrite bool_decide_eq_false_2
             by (rewrite elem_of_cons; intros [? | ?]; congruence).
           reflexivity.
    + rewrite bool_decide_eq_false_2 by (intros [x [=]]).
      destruct (IH Hrest acc) as (d & Hd & Hk).
      exists d. split; [exact Hd|]. intros k. rewrite Hk.
      destruct (decide (k ∈ rest)) as [Hin | Hnin].
      * rewrite !bool_decide_eq_true_2 by (try apply elem_of_cons; auto).
        reflexivity.
      * rewrite (bool_decide_eq_false_2 (k ∈ rest)) by exact Hnin.
        destruct (decide (coin = k)) as [-> | Hne].
        -- rewrite bool_decide_eq_true_2 by (apply elem_of_cons; auto).
           unfold price_of. rewrite Ec. reflexivity.
        -- rewrite bool_decide_eq_false_2
             by (rewrite elem_of_cons; intros [? | ?]; congruence).
           reflexivity.
Qed.

(** X8: the price connector on a usable JSON object in which every
    requested coin that is present has a [usd] field: it prints nothing, and
    the mapping it returns binds a name exactly when the name is a requested
    coin present in the object, to that coin's [usd] value; requested coins
    that are absent are left out. *)
Theorem crypto_prices_are_the_present_coins (w : world) (coins : list string)
    (st : state) (obj : gmap string json) :
  delivers (http_get w (now st) (API_SOURCES "crypto") (crypto_params coins))
    (JObj obj) ->
  (forall coin c, coin ∈ coins -> obj !! coin = Some c ->
     exists v, getitem c "usd" = Ok v) ->
  snd (fetch_crypto_prices w coins st)
  = log (EvHttpGet (API_SOURCES "crypto") (crypto_params coins) 10) st
  /\ forall k, fst (fetch_crypto_prices w coins st) !! k
               = if bool_decide (k ∈ coins) then price_of obj k else None.
Proof.
  intros Hd Hall. rewrite fetch_crypto_prices_unfold, requests_get_fst. simpl.
  destruct Hd as (code & -> & Hcode). unfold crypto_of. simpl.
  rewrite raise_for_status_fine by assumption. simpl.
  destruct (usd_prices_object obj coins Hall ∅) as (d & -> & Hk).
  simpl. split; [reflexivity|]. intros k. rewrite Hk.
  destruct (if bool_decide (k ∈ coins) then price_of obj k else None);
    [reflexivity | apply lookup_empty].
Qed.

Lemma crypto_prices_are_the_present_coins_witness :
  snd (fetch_crypto_prices (http_world bitcoin_only) default_coins fresh_state)
  = log (EvHttpGet (API_SOURCES "crypto") (crypto_params default_coins) 10) fresh_state
  /\ forall k, fst (fetch_crypto_prices (http_world bitcoin_only) default_coins
                      fresh_state) !! k
               = if bool_decide (k ∈ default_coins)
                 then price_of (<["bitcoin" := usd 42000]> ∅) k else None.
Proof.
  refine (crypto_prices_are_the_present_coins (http_world bitcoin_only)
            default_coins fresh_state (<["bitcoin" := usd 42000]> ∅) _ _).
  - exists 200. split; [reflexivity | lia].
  - intros coin c _ Hc.
    destruct (decide (coin = "bitcoin")) as [-> | Hne].
    + rewrite lookup_insert_eq in Hc. injection Hc as <-.
      exists (JNum (PyInt 42000)). reflexivity.
    + rewrite lookup_insert_ne, lookup_empty in Hc by congruence. discriminate.
Defined.

(** ** The database handle over several calls *)

Lemma run_query_reuses {row : Type} (w : world) (sql : string)
    (params : list sql_param) (exec : nat -> nat -> pg_outcome row)
    (message : string) (st : state) (c : pg_connection) :
  conn (pg_collector st) = Some c -> closed c = false ->
  run_query w sql params exec message st =
  match exec (now st) (conn_id c) with
  | PgRows rows => (rows, log (EvPgExecute (conn_id c) sql params) st)
  | PgError lost =>
      ([], log (EvPrint message)
             (mark_lost lost c (log (EvPgExecute (conn_id c) sql params) st)))
  end.
Proof.
  intros Hc Hopen. unfold run_query, ensure_connection, handle_unusable, open_cursor.
  rewrite Hc, Hopen. simpl. rewrite Hc, Hopen. reflexivity.
Qed.

(** X9: with an open handle, the two read operations do not connect: the
    first, and only, database event is the execution of the statement on the
    connection already held; the rows of the answer are returned as they
    are; and afterwards the collector still holds that connection, marked
    closed exactly when the failure lost it. *)
Theorem pg_reads_reuse_open_handle (w : world) (st : state) (c : pg_connection)
    (query : option string) (name : string) (a b : datetime) :
  conn (pg_collector st) = Some c -> closed c = false ->
  let run1 := fetch_metrics w query st in
  let run2 := pg_fetch_time_series w name a b st in
  let ev1 := EvPgExecute (conn_id c) (metrics_sql query) [] in
  let ev2 := EvPgExecute (conn_id c) time_series_sql (time_series_params name a b) in
  (forall rows, pg_execute w (now st) (conn_id c) (metrics_sql query) [] = PgRows rows ->
     run1 = (rows, log ev1 st))
  /\ (forall rows,
        pg_execute_ts w (now st) (conn_id c) (time_series_params name a b)
        = PgRows rows ->
        run2 = (rows, log ev2 st))
  /\ (forall lost,
        pg_execute w (now st) (conn_id c) (metrics_sql query) [] = PgError lost ->
        fst run1 = []
        /\ trace (snd run1) = trace st ++ [ev1; EvPrint "PostgreSQL query error"]
        /\ conn (pg_collector (snd run1))
           = Some {| conn_id := conn_id c; closed := lost |})
  /\ (forall lost,
        pg_execute_ts w (now st) (conn_id c) (time_series_params name a b)
        = PgError lost ->
        fst run2 = []
        /\ trace (snd run2) = trace st ++ [ev2; EvPrint "PostgreSQL time series error"]
        /\ conn (pg_collector (snd run2))
           = Some {| conn_id := conn_id c; closed := lost |}).
Proof.
  intros Hc Hopen run1 run2 ev1 ev2.
  unfold run1, run2, fetch_metrics, pg_fetch_time_series.
  fold (metrics_sql query). fold (time_series_params name a b).
  rewrite !(run_query_reuses _ _ _ _ _ _ c Hc Hopen).
  split; [|split; [|split]]; intros x Hx; rewrite Hx; try reflexivity.
  - split; [reflexivity|]. split.
    + destruct x; simpl; rewrite <- !app_assoc; reflexivity.
    + destruct x; simpl; [reflexivity|].
      rewrite Hc. destruct c; simpl in *; congruence.
  - split; [reflexivity|]. split.
    + destruct x; simpl; rewrite <- !app_assoc; reflexivity.
    + destruct x; simpl; [reflexivity|].
      rewrite Hc. destruct c; simpl in *; congruence.
Qed.

Lemma pg_reads_reuse_open_handle_witness :
  pg_fetch_time_series (db_world [sample_row] []) "cpu_usage" jan1_midnight jan1_0010
    (connected_state 5)
  = ([sample_row],
     log (EvPgExecute 5 time_series_sql
            (time_series_params "cpu_usage" jan1_midnight jan1_0010))
       (connected_state 5)).
Proof.
  destruct (pg_reads_reuse_open_handle (db_world [sample_row] []) (connected_state 5)
              {| conn_id := 5; closed := false |} None "cpu_usage"
              jan1_midnight jan1_0010 eq_refl eq_refl) as (_ & H & _).
  apply H. reflexivity.
Defined.

(** X10: a read whose statement fails and loses the connection leaves the
    handle closed, so the next read starts by connecting again; a failure
    that does not lose the connection leaves the collector as it was, and the
    next read runs on the same connection without connecting. *)
Theorem pg_failure_then_next_read (w : world) (st : state) (c : pg_connection)
    (name : string) (a b : datetime) (lost : bool) :
  conn (pg_collector st) = Some c -> closed c = false ->
  pg_execute_ts w (now st) (conn_id c) (time_series_params name a b) = PgError lost ->
  let st1 := snd (pg_fetch_time_series w name a b st) in
  forall name' a' b',
    if lost then
      exists tail,
        trace (snd (pg_fetch_time_series w name' a' b' st1))
        = trace st1 ++ EvPgConnect :: tail
    else
      pg_collector st1 = pg_collector st
      /\ exists tail,
           trace (snd (pg_fetch_time_series w name' a' b' st1))
           = trace st1 ++ EvPgExecute (conn_id c) time_series_sql
                            (time_series_params name' a' b') :: tail.
Proof.
  intros Hc Hopen Herr st1 name' a' b'.
  assert (st1 = log (EvPrint "PostgreSQL time series error")
                  (mark_lost lost c
                     (log (EvPgExecute (conn_id c) time_series_sql
                             (time_series_params name a b)) st))) as Hst1.
  { unfold st1, pg_fetch_time_series. fold (time_series_params name a b).
    rewrite (run_query_reuses _ _ _ _ _ _ c Hc Hopen), Herr. reflexivity. }
  destruct lost.
  - unfold pg_fetch_time_series.
    destruct (run_query_reconnects w time_series_sql
                [ParamText name'; ParamTimestamp a'; ParamTimestamp b']
                (λ n c0, pg_execute_ts w n c0
                           [ParamText name'; ParamTimestamp a'; ParamTimestamp b'])
                "PostgreSQL time series error" st1) as (tail & Ht & _).
    { rewrite Hst1. reflexivity. }
    eauto.
  - assert (pg_collector st1 = pg_collector st) as Hpg by (rewrite Hst1; reflexivity).
    split; [exact Hpg|].
    unfold pg_fetch_time_series. fold (time_series_params name' a' b').
    rewrite (run_query_reuses _ _ _ _ _ _ c) by (rewrite ?Hpg; assumption).
    clear Herr Hst1.
    destruct (pg_execute_ts w (now st1) (conn_id c) (time_series_params name' a' b'))
      as [rows|l]; simpl.
    + exists []. reflexivity.
    + exists [EvPrint "PostgreSQL time series error"].
      destruct l; simpl; rewrite <- !app_assoc; reflexivity.
Qed.

Lemma pg_failure_then_next_read_witness :
  exists tail,
    trace (snd (pg_fetch_time_series dropping_db_world "cpu_usage" jan1_midnight
                  jan1_0010
                  (snd (pg_fetch_time_series dropping_db_world "cpu_usage"
                          jan1_midnight jan1_0010 (connected_state 5)))))
    = trace (snd (pg_fetch_time_series dropping_db_world "cpu_usage" jan1_midnight
                    jan1_0010 (connected_state 5)))
      ++ EvPgConnect :: tail.
Proof.
  exact (pg_failure_then_next_read dropping_db_world (connected_state 5)
           {| conn_id := 5; closed := false |} "cpu_usage" jan1_midnight jan1_0010
           true eq_refl eq_refl eq_refl "cpu_usage" jan1_midnight jan1_0010).
Defined.

(** ** The health endpoint *)

(** X11: [GET /] reports postgresql as true exactly when its connection
    attempt succeeds, elasticsearch as the flag set at start-up, and apis as
    true; and whatever happens it leaves the database handle absent or
    closed, so that the next read of the database starts with a new
    connection attempt. *)
Theorem health_reports_and_tears_down (w : world) (st : state) :
  let status := fst (health w st) in
  let st' := snd (health w st) in
  postgresql status = bool_decide (is_Some (pg_connect w (now st)))
  /\ elasticsearch status = connected (es_collector st)
  /\ apis status = true
  /\ handle_unusable (pg_collector st') = true
  /\ forall name a b, exists tail,
       trace (snd (pg_fetch_time_series w name a b st'))
       = trace st' ++ EvPgConnect :: tail.
Proof.
  intros status st'.
  assert (handle_unusable (pg_collector st') = true) as Hun.
  { unfold st', health, connect, disconnect, handle_unusable.
    destruct (pg_connect w (now st)) as [id|]; simpl; [reflexivity|].
    destruct (conn (pg_collector st)) as [c|] eqn:Ec; simpl; [reflexivity|].
    rewrite Ec. reflexivity. }
  split; [|split; [|split; [|split]]].
  - unfold status, health, connect.
    destruct (pg_connect w (now st)) as [id|]; reflexivity.
  - unfold status, health, connect.
    destruct (pg_connect w (now st)); reflexivity.
  - unfold status, health. destruct (connect w st); reflexivity.
  - exact Hun.
  - intros name a b. unfold pg_fetch_time_series.
    destruct (run_query_reconnects w time_series_sql
                [ParamText name; ParamTimestamp a; ParamTimestamp b]
                (λ n c0, pg_execute_ts w n c0
                           [ParamText name; ParamTimestamp a; ParamTimestamp b])
                "PostgreSQL time series error" st' Hun) as (tail & Ht & _).
    eauto.
Qed.

(** X12: which connection [GET /] closes when the collector holds one.
    If the new connection attempt succeeds, the handle is replaced, the
    connection just opened is closed, and the one held before is never
    closed; if the attempt fails, it is the connection held before that is
    closed. *)
Theorem health_closes_a_connection (w : world) (st : state) (c : pg_connection) :
  conn (pg_collector st) = Some c ->
  let st' := snd (health w st) in
  match pg_connect w (now st) with
  | Some id =>
      trace st' = trace st ++ [EvPgConnect; EvPgClose id]
      /\ conn (pg_collector st') = Some {| conn_id := id; closed := true |}
  | None =>
      trace st' = trace st ++ [EvPgConnect; EvPrint "PostgreSQL connection error";
                               EvPgClose (conn_id c)]
      /\ conn (pg_collector st') = Some {| conn_id := conn_id c; closed := true |}
  end.
Proof.
  intros Hc st'. unfold st', health, connect, disconnect.
  destruct (pg_connect w (now st)) as [id|]; simpl.
  - rewrite <- !app_assoc. split; reflexivity.
  - rewrite Hc. simpl. rewrite <- !app_assoc. split; reflexivity.
Qed.

Lemma health_closes_a_connection_witness :
  trace (snd (health (db_world [] []) (connected_state 5)))
  = trace (connected_state 5) ++ [EvPgConnect; EvPgClose 0]
  /\ conn (pg_collector (snd (health (db_world [] []) (connected_state 5))))
     = Some {| conn_id := 0; closed := true |}.
Proof.
  exact (health_closes_a_connection (db_world [] []) (connected_state 5)
           {| conn_id := 5; closed := false |} eq_refl).
Defined.

(** ** Aggregated metrics *)

Lemma sql_eqb_sym (a b : sql_value) : sql_eqb a b = sql_eqb b a.
Proof.
  destruct a, b; simpl; try reflexivity.
  - destruct (Qeq_bool q q0) eqn:E1, (Qeq_bool q0 q) eqn:E2; try reflexivity.
    + apply Qeq_bool_iff in E1. apply Qeq_bool_neq in E2. symmetry in E1. tauto.
    + apply Qeq_bool_iff in E2. apply Qeq_bool_neq in E1. symmetry in E2. tauto.
  - apply bool_decide_ext. split; congruence.
  - apply Z.eqb_sym.
Qed.

Lemma sql_eqb_trans (a b c : sql_value) :
  sql_eqb a b = true -> sql_eqb b c = sql_eqb a c.
Proof.
  destruct a, b; simpl; try discriminate; intros H; destruct c; simpl;
    try reflexivity.
  - apply Qeq_bool_iff in H.
    destruct (Qeq_bool q0 q1) eqn:E1, (Qeq_bool q q1) eqn:E2; try reflexivity.
    + apply Qeq_bool_iff in E1. apply Qeq_bool_neq in E2.
      exfalso. apply E2. rewrite H. exact E1.
    + apply Qeq_bool_iff in E2. apply Qeq_bool_neq in E1.
      exfalso. apply E1. rewrite <- H. exact E2.
  - apply bool_decide_eq_true in H. subst. reflexivity.
  - apply Z.eqb_eq in H. subst. reflexivity.
Qed.

Lemma dict_get_set {V : Type} (k k' : sql_value) (v : V) (d : list (sql_value * V)) :
  dict_get k (dict_set k' v d) = if sql_eqb k' k then Some v else dict_get k d.
Proof.
  induction d as [|[k0 v0] d IH]; simpl; [reflexivity|].
  destruct (sql_eqb k0 k') eqn:E0; simpl.
  - rewrite <- (sql_eqb_trans k0 k' k E0).
    destruct (sql_eqb k' k); reflexivity.
  - rewrite IH.
    destruct (sql_eqb k0 k) eqn:E1; [|reflexivity].
    destruct (sql_eqb k' k) eqn:E2; [|reflexivity].
    exfalso.
    assert (sql_eqb k k' = true) as E3 by (rewrite sql_eqb_sym; exact E2).
    rewrite <- (sql_eqb_trans k0 k k' E1) in E0. congruence.
Qed.

Lemma find_snoc {A : Type} (f : A -> bool) (l : list A) (x : A) :
  find f (l ++ [x]) = match find f l with
                      | Some y => Some y
                      | None => if f x then Some x else None
                      end.
Proof.
  induction l as [|y l IH]; simpl; [reflexivity|].
  destruct (f y); [reflexivity | exact IH].
Qed.

Lemma last_named_cons k row rest :
  last_named k (row :: rest) =
  match last_named k rest with
  | Some r => Some r
  | None => match row !! "metric_name" with
            | Some name => if sql_eqb name k then Some row else None
            | None => None
            end
  end.
Proof.
  unfold last_named. simpl rev. rewrite find_snoc.
  destruct (find _ (rev rest)); [reflexivity|].
  destruct (row !! "metric_name") as [name|]; [|reflexivity].
  destruct (sql_eqb name k); reflexivity.
Qed.

Lemma by_metric_name_named rows : forall acc,
  Forall (λ row : gmap string sql_value, is_Some (row !! "metric_name")) rows ->
  exists d, by_metric_name rows acc = Ok d
            /\ forall k, dict_get k d = match last_named k rows with
                                        | Some r => Some r
                                        | None => dict_get k acc
                                        end.
Proof.
  induction rows as [|row rest IH]; intros acc Hall; cbn [by_metric_name].
  - exists acc. split; reflexivity.
  - apply Forall_cons_1 in Hall as [[name Hname] Hall]. rewrite Hname.
    destruct (IH (dict_set name row acc) Hall) as (d & Hd & Hk).
    exists d. split; [exact Hd|]. intros k.
    rewrite Hk, last_named_cons, dict_get_set.
    destruct (last_named k rest); [reflexivity|].
    rewrite Hname. destruct (sql_eqb name k); reflexivity.
Qed.

Lemma by_metric_name_unnamed rows : forall acc,
  Exists (λ row : gmap string sql_value, row !! "metric_name" = None) rows ->
  by_metric_name rows acc = Raise KeyError.
Proof.
  induction rows as [|row rest IH]; intros acc Hex; [inversion Hex|].
  cbn [by_metric_name].
  destruct (row !! "metric_name") as [name|] eqn:E; [|reflexivity].
  apply IH. inversion Hex; subst; [congruence | assumption].
Qed.

(** X13: [fetch_aggregated_metrics] runs the aggregate statement through
    [fetch_metrics] and indexes the rows by metric name: when every row has
    a [metric_name], looking a name up gives the last row carrying that name
    and nothing is printed; when some row has none, the whole result is the
    empty mapping, with the aggregation error printed. *)
Theorem aggregated_metrics_by_name (w : world) (st : state) :
  let rows := fst (fetch_metrics w (Some aggregated_sql) st) in
  let st1 := snd (fetch_metrics w (Some aggregated_sql) st) in
  (Forall (λ row : gmap string sql_value, is_Some (row !! "metric_name")) rows ->
     snd (fetch_aggregated_metrics w st) = st1
     /\ forall k, dict_get k (fst (fetch_aggregated_metrics w st)) = last_named k rows)
  /\ (Exists (λ row : gmap string sql_value, row !! "metric_name" = None) rows ->
      fetch_aggregated_metrics w st
      = ([], log (EvPrint "PostgreSQL aggregation error") st1)).
Proof.
  intros rows st1. unfold fetch_aggregated_metrics.
  destruct (fetch_metrics w (Some aggregated_sql) st) as [results st2] eqn:E.
  simpl in rows, st1. subst rows st1. split.
  - intros Hall. destruct (by_metric_name_named results [] Hall) as (d & -> & Hk).
    simpl. split; [reflexivity|]. intros k. rewrite Hk.
    destruct (last_named k results); reflexivity.
  - intros Hex. rewrite (by_metric_name_unnamed results [] Hex). reflexivity.
Qed.

Lemma aggregated_metrics_by_name_witness :
  dict_get (SqlText "cpu_usage")
    (fst (fetch_aggregated_metrics (db_world [] [cpu_row 1; cpu_row 2]) fresh_state))
  = Some (cpu_row 2).
Proof.
  destruct (aggregated_metrics_by_name (db_world [] [cpu_row 1; cpu_row 2])
              fresh_state) as [H _].
  destruct H as [_ H].
  - repeat constructor; eexists; reflexivity.
  - rewrite H. reflexivity.
Defined.

(** ** The search connector when it is connected *)

Lemma float_of_or_zero_value (v : option Q) :
  float_of_number (or_zero v)
  = Ok (match v with
        | Some q => if Qeq_bool q 0 then 0%Q else q
        | None => 0%Q
        end).
Proof.
  destruct v as [q|]; simpl; [destruct (Qeq_bool q 0)|]; reflexivity.
Qed.

Lemma es_datapoints_buckets (buckets : list histogram_bucket) :
  es_datapoints (map (λ b, {| es_timestamp := bucket_key b;
                              es_value := or_zero (bucket_avg b) |}) buckets)
  = Ok (map (λ b, (PyFloat (coalesced b), bucket_key b)) buckets).
Proof.
  induction buckets as [|b rest IH]; [reflexivity|].
  cbn [map es_datapoints es_value es_timestamp].
  rewrite float_of_or_zero_value, IH. reflexivity.
Qed.

(** X14: an elastic.* target with the search engine connected: one search
    is issued, on index metrics-* with the target's last segment as field;
    if it answers, the entry has one datapoint per bucket, in order, whose
    timestamp is the bucket key and whose value is the bucket average, 0
    when the average is missing, and the generated timestamps play no part;
    if it raises, the entry has no datapoints and an error is printed. *)
Theorem elastic_datapoints_are_the_buckets (w : world) (a b : datetime)
    (ts : list Z) (metric : string) (st : state) :
  is_prefix "elastic." metric = true ->
  connected (es_collector st) = true -> es (es_collector st) = Some tt ->
  let search := EvEsSearch "metrics-*" (TimeSeriesQuery (last_segment metric) a b) in
  match es_search_histogram w (now st) "metrics-*" (last_segment metric) a b with
  | Ok buckets =>
      query_target w a b ts metric st
      = (Ok (entry_of metric
               (map (λ b, (PyFloat (coalesced b), bucket_key b)) buckets)),
         log search st)
  | Raise _ =>
      query_target w a b ts metric st
      = (Ok (entry_of metric []),
         log (EvPrint "Elasticsearch time series error") (log search st))
  end.
Proof.
  intros Hp Hc Hes search. rewrite query_target_by_family.
  rewrite (family_of_prefix "elastic." Elastic metric Hp eq_refl) by (simpl; tauto).
  unfold es_fetch_time_series, es_search. rewrite Hc, Hes. simpl.
  destruct (es_search_histogram w (now st) "metrics-*" (last_segment metric) a b)
    as [buckets|e]; simpl; [|reflexivity].
  rewrite es_datapoints_buckets. reflexivity.
Qed.

Lemma elastic_datapoints_are_the_buckets_witness :
  query_target (es_world empty_logs sample_buckets empty_app) jan1_midnight jan1_0010
    [] "elastic.response_time" (startup (es_world empty_logs sample_buckets empty_app))
  = (Ok (entry_of "elastic.response_time"
           [(PyFloat (5 # 2), 1704067200000); (PyFloat 0, 1704067500000)]),
     log (EvEsSearch "metrics-*"
            (TimeSeriesQuery "response_time" jan1_midnight jan1_0010))
       (startup (es_world empty_logs sample_buckets empty_app))).
Proof.
  exact (elastic_datapoints_are_the_buckets
           (es_world empty_logs sample_buckets empty_app) jan1_midnight jan1_0010 []
           "elastic.response_time"
           (startup (es_world empty_logs sample_buckets empty_app))
           eq_refl eq_refl eq_refl).
Defined.

Lemma fold_insert_other {V B : Type} (key : B -> string) (val : B -> V)
    (k : string) (l : list B) : forall m : gmap string V,
  (forall b, In b l -> key b <> k) ->
  fold_left (λ m b, <[key b := val b]> m) l m !! k = m !! k.
Proof.
  induction l as [|b l IH]; intros m Hk; simpl; [reflexivity|].
  rewrite IH by (intros b' Hb'; apply Hk; right; exact Hb').
  apply lookup_insert_ne. apply Hk. left. reflexivity.
Qed.

Lemma fold_insert_keys {V B : Type} (key : B -> string) (val : B -> V)
    (k : string) (l : list B) : forall m : gmap string V,
  is_Some (fold_left (λ m b, <[key b := val b]> m) l m !! k) ->
  is_Some (m !! k) \/ exists b, In b l /\ key b = k.
Proof.
  induction l as [|b l IH]; intros m Hk; simpl in Hk; [auto|].
  apply IH in Hk as [Hk | (b' & Hb' & <-)]; [|right; exists b'; split; [right|]; auto].
  rewrite lookup_insert in Hk. case_decide; [|auto].
  right. exists b. split; [left; reflexivity | assumption].
Qed.



(** X16: [fetch_application_metrics] with the search engine connected and
    answering: request_count is the value count, avg_response_time the
    average with a missing average read as 0, no status bucket can overwrite
    either, and every other key is status_ followed by a bucket key. *)
Theorem application_metrics_keep_their_totals (w : world) (index : string)
    (st : state) (res : app_response) :
  connected (es_collector st) = true -> es (es_collector st) = Some tt ->
  es_search_app w (now st) index = Ok res ->
  let metrics := fst (es_fetch_application_metrics w index st) in
  metrics !! "request_count" = Some (MetricInt (request_count res))
  /\ metrics !! "avg_response_time"
     = Some (MetricNumber (or_zero (avg_response_time res)))
  /\ (avg_response_time res = None ->
      metrics !! "avg_response_time" = Some (MetricNumber (PyInt 0)))
  /\ forall k, is_Some (metrics !! k) ->
       k = "request_count" \/ k = "avg_response_time"
       \/ exists b, In b (status_code_buckets res) /\ k = "status_" +:+ fst b.
Proof.
  intros Hc Hes Hres metrics. unfold metrics, es_fetch_application_metrics, es_search.
  rewrite Hc, Hes. simpl. rewrite Hres. simpl.
  split; [|split; [|split]].
  - rewrite (fold_insert_other (λ b : string * Z, "status_" +:+ fst b)
               (λ b, MetricInt (snd b)))
      by (intros b _; discriminate).
    reflexivity.
  - rewrite (fold_insert_other (λ b : string * Z, "status_" +:+ fst b)
               (λ b, MetricInt (snd b)))
      by (intros b _; discriminate).
    reflexivity.
  - intros Hnone.
    rewrite (fold_insert_other (λ b : string * Z, "status_" +:+ fst b)
               (λ b, MetricInt (snd b)))
      by (intros b _; discriminate).
    rewrite Hnone. reflexivity.
  - intros k Hk.
    apply (fold_insert_keys (λ b : string * Z, "status_" +:+ fst b)
             (λ b, MetricInt (snd b))) in Hk
      as [Hk | (b & Hb & <-)]; [|eauto].
    rewrite lookup_insert in Hk. case_decide; [auto|].
    rewrite lookup_insert in Hk. case_decide; [auto|].
    rewrite lookup_empty in Hk. destruct Hk as [? [=]].
Qed.

Lemma application_metrics_keep_their_totals_witness :
  fst (es_fetch_application_metrics (es_world empty_logs [] sample_app) "metrics-*"
         (startup (es_world empty_logs [] sample_app))) !! "request_count"
  = Some (MetricInt 7).
Proof.
  apply (application_metrics_keep_their_totals (es_world empty_logs [] sample_app)
           "metrics-*" (startup (es_world empty_logs [] sample_app))
           sample_app eq_refl eq_refl eq_refl).
Defined.

(** ** What a request does to the outside *)

Lemma ensure_connection_no_get w st :
  http_calls (trace (ensure_connection w st)) = http_calls (trace st).
Proof.
  unfold ensure_connection, connect.
  destruct (handle_unusable _); [|reflexivity].
  destruct (pg_connect w (now st)); simpl;
    rewrite !http_calls_app; simpl; rewrite ?app_nil_r; reflexivity.
Qed.

Lemma mark_lost_trace lost c st : trace (mark_lost lost c st) = trace st.
Proof. destruct lost; reflexivity. Qed.

Lemma run_query_no_get {row : Type} (w : world) (sql : string)
    (params : list sql_param) (exec : nat -> nat -> pg_outcome row)
    (message : string) (st : state) :
  http_calls (trace (snd (run_query w sql params exec message st)))
  = http_calls (trace st).
Proof.
  unfold run_query.
  destruct (open_cursor _) as [c|]; [destruct (exec _ _) as [rows|lost]|]; simpl;
    rewrite ?mark_lost_trace; simpl;
    rewrite !http_calls_app; simpl; rewrite ?app_nil_r;
    apply ensure_connection_no_get.
Qed.

Lemma es_time_series_no_get w index field a b st :
  http_calls (trace (snd (es_fetch_time_series w index field a b st)))
  = http_calls (trace st).
Proof.
  unfold es_fetch_time_series, es_search.
  destruct (negb _); [reflexivity|].
  destruct (es (es_collector st)); simpl;
    [destruct (es_search_histogram _ _ _ _ _ _)|]; simpl;
    rewrite ?http_calls_app; simpl; rewrite ?app_nil_r; reflexivity.
Qed.

Lemma query_target_gets w a b ts metric st :
  http_calls (trace (snd (query_target w a b ts metric st)))
  = http_calls (trace st) ++ get_of_target metric.
Proof.
  rewrite query_target_by_family. unfold get_of_target.
  destruct (family_of metric); simpl.
  - apply weather_one_get.
  - apply crypto_one_get.
  - apply github_one_get.
  - rewrite app_nil_r. apply run_query_no_get.
  - rewrite app_nil_r. apply es_time_series_no_get.
  - rewrite app_nil_r. reflexivity.
Qed.

Lemma query_targets_gets w a b ts metrics : forall results st resp st',
  query_targets w a b ts metrics results st = (Ok resp, st') ->
  http_calls (trace st') = http_calls (trace st) ++ flat_map get_of_target metrics.
Proof.
  induction metrics as [|metric rest IH]; intros results st resp st' H; simpl in H.
  - injection H as _ <-. simpl. rewrite app_nil_r. reflexivity.
  - pose proof (query_target_gets w a b ts metric st) as Hg.
    destruct (query_target w a b ts metric st) as [[entry|e] st1]; [|discriminate].
    simpl in Hg. apply IH in H. rewrite H, Hg, <- app_assoc. reflexivity.
Qed.

(** X17: nothing is cached. An answered request has issued exactly one GET
    per target that goes to an API connector, in the order of the targets,
    each to its connector's fixed endpoint with the default parameters and
    timeout 10, and no GET for any other target; the time range plays no
    part, so the upstream is called even when no datapoint can result. *)
Theorem one_get_per_api_target (w : world) (req : query_request) (st : state)
    (resp : list series) (st' : state) :
  query w req st = (Ok resp, st') ->
  http_calls (trace st')
  = http_calls (trace st) ++ flat_map get_of_target (targets req).
Proof.
  unfold query. destruct (generate_timestamps _ _); [|discriminate].
  apply query_targets_gets.
Qed.

Lemma one_get_per_api_target_witness :
  http_calls (trace (snd (query (http_world both_coins)
                            {| range_from := jan1_0010; range_to := jan1_midnight;
                               targets := ["api.crypto.bitcoin"; "unknown.thing";
                                           "api.crypto.ethereum"] |}
                            fresh_state)))
  = http_calls (trace fresh_state)
    ++ flat_map get_of_target ["api.crypto.bitcoin"; "unknown.thing";
                               "api.crypto.ethereum"].
Proof.
  apply (one_get_per_api_target (http_world both_coins)
           {| range_from := jan1_0010; range_to := jan1_midnight;
              targets := ["api.crypto.bitcoin"; "unknown.thing";
                          "api.crypto.ethereum"] |}
           fresh_state
           [entry_of "api.crypto.bitcoin" []; entry_of "unknown.thing" [];
            entry_of "api.crypto.ethereum" []]).
  vm_compute. reflexivity.
Defined.

Lemma api_connectors_keep_pg w st :
  pg_collector (snd (fetch_weather_data w st)) = pg_collector st
  /\ pg_collector (snd (fetch_crypto_prices w default_coins st)) = pg_collector st
  /\ pg_collector (snd (fetch_github_stats w default_repo st)) = pg_collector st.
Proof.
  rewrite fetch_weather_data_unfold, fetch_crypto_prices_unfold,
    fetch_github_stats_unfold. simpl.
  destruct (weather_of _), (crypto_of _ _), (github_of _); repeat split.
Qed.

Lemma es_time_series_keeps_pg w index field a b st :
  pg_collector (snd (es_fetch_time_series w index field a b st)) = pg_collector st.
Proof.
  unfold es_fetch_time_series, es_search.
  destruct (negb _); [reflexivity|].
  destruct (es (es_collector st)); simpl;
    [destruct (es_search_histogram _ _ _ _ _ _)|]; reflexivity.
Qed.

Lemma query_target_keeps_pg w a b ts metric st :
  postgres_target metric = false ->
  pg_collector (snd (query_target w a b ts metric st)) = pg_collector st.
Proof.
  unfold postgres_target. rewrite query_target_by_family.
  destruct (family_of metric); simpl; intros H; try discriminate.
  - apply api_connectors_keep_pg.
  - apply api_connectors_keep_pg.
  - apply api_connectors_keep_pg.
  - apply es_time_series_keeps_pg.
  - reflexivity.
Qed.

Lemma db_events_app tr1 tr2 : db_events (tr1 ++ tr2) = db_events tr1 ++ db_events tr2.
Proof. apply flat_map_app. Qed.

Lemma api_connectors_no_db w st :
  db_events (trace (snd (fetch_weather_data w st))) = db_events (trace st)
  /\ db_events (trace (snd (fetch_crypto_prices w default_coins st)))
     = db_events (trace st)
  /\ db_events (trace (snd (fetch_github_stats w default_repo st)))
     = db_events (trace st).
Proof.
  rewrite fetch_weather_data_unfold, fetch_crypto_prices_unfold,
    fetch_github_stats_unfold. simpl.
  destruct (weather_of _), (crypto_of _ _), (github_of _); simpl;
    rewrite !db_events_app; simpl; rewrite ?app_nil_r; repeat split.
Qed.

Lemma es_time_series_no_db w index field a b st :
  db_events (trace (snd (es_fetch_time_series w index field a b st)))
  = db_events (trace st).
Proof.
  unfold es_fetch_time_series, es_search.
  destruct (negb _); [reflexivity|].
  destruct (es (es_collector st)); simpl;
    [destruct (es_search_histogram _ _ _ _ _ _)|]; simpl;
    rewrite ?db_events_app; simpl; rewrite ?app_nil_r; reflexivity.
Qed.

Lemma query_target_no_db w a b ts metric st :
  postgres_target metric = false ->
  db_events (trace (snd (query_target w a b ts metric st))) = db_events (trace st).
Proof.
  unfold postgres_target. rewrite query_target_by_family.
  destruct (family_of metric); simpl; intros H; try discriminate.
  - apply api_connectors_no_db.
  - apply api_connectors_no_db.
  - apply api_connectors_no_db.
  - apply es_time_series_no_db.
  - reflexivity.
Qed.

(** X18: a request without postgres.* target never touches the database:
    whether it is answered or ends in an exception, it issues no connection
    attempt, no statement and no close, and the collector's handle is what it
    was. *)
Theorem no_postgres_target_no_database (w : world) (req : query_request)
    (st : state) :
  Forall (λ metric, postgres_target metric = false) (targets req) ->
  pg_collector (snd (query w req st)) = pg_collector st
  /\ db_events (trace (snd (query w req st))) = db_events (trace st).
Proof.
  unfold query. destruct (generate_timestamps _ _) as [ts|]; [|split; reflexivity].
  generalize (@nil series). revert st.
  induction (targets req) as [|metric rest IH]; intros st results Hall; simpl;
    [split; reflexivity|].
  apply Forall_cons_1 in Hall as [Hm Hall].
  pose proof (query_target_keeps_pg w (range_from req) (range_to req) ts metric st Hm)
    as Hpg.
  pose proof (query_target_no_db w (range_from req) (range_to req) ts metric st Hm)
    as Hdb.
  destruct (query_target w (range_from req) (range_to req) ts metric st)
    as [[entry|e] st1]; simpl in Hpg, Hdb.
  - destruct (IH st1 (results ++ [entry]) Hall) as [-> ->]. split; assumption.
  - split; assumption.
Qed.

Lemma no_postgres_target_no_database_witness :
  pg_collector (snd (query (db_world [] []) bitcoin_request (connected_state 5)))
  = pg_collector (connected_state 5)
  /\ db_events (trace (snd (query (db_world [] []) bitcoin_request
                              (connected_state 5))))
     = db_events (trace (connected_state 5)).
Proof.
  apply (no_postgres_target_no_database (db_world [] []) bitcoin_request
           (connected_state 5)).
  repeat constructor.
Defined.

(** ** The ticket filer when things go wrong *)

(** X19: the ticket filer has no error handling of its own. If the POST
    raises, the script ends with that exception; and with status 201 it ends
    with an exception, printing nothing, when the body is not JSON
    (JSONDecodeError), when it is a JSON object without key (KeyError), and
    when it is JSON of another kind (TypeError). *)
Theorem ticket_filer_unhandled (email : string) (env : Jsm.environ)
    (post : Jsm.post_request -> result Jsm.post_response) :
  (forall e, post (Jsm.build_request email env) = Raise e ->
     Jsm.main email env post = Raise e)
  /\ (forall response,
        post (Jsm.build_request email env) = Ok response ->
        Jsm.status_code response = 201 ->
        match Jsm.json_body response with
        | None => Jsm.main email env post = Raise JSONDecodeError
        | Some (JObj o) =>
            o !! "key" = None -> Jsm.main email env post = Raise KeyError
        | Some _ => Jsm.main email env post = Raise TypeError
        end).
Proof.
  split.
  - intros e He. unfold Jsm.main. rewrite He. reflexivity.
  - intros response Hpost Hstatus. unfold Jsm.main. rewrite Hpost. simpl.
    rewrite Hstatus. simpl.
    destruct (Jsm.json_body response) as [[| | | | |o]|]; simpl; try reflexivity.
    intros ->. reflexivity.
Qed.

Lemma ticket_filer_unhandled_witness :
  Jsm.main "someone@example.com" sample_environ created_without_key = Raise KeyError.
Proof.
  exact (proj2 (ticket_filer_unhandled "someone@example.com" sample_environ
                  created_without_key)
           {| Jsm.status_code := 201; Jsm.text := "{}";
              Jsm.json_body := Some (JObj ∅) |} eq_refl eq_refl eq_refl).
Defined.

(** ** The last segment of a metric name *)

Lemma split_on_nonempty sep s : split_on sep s <> [].
Proof.
  destruct s as [|c s]; simpl; [discriminate|].
  destruct (bool_decide (c = sep)); [discriminate|].
  destruct (split_on sep s); discriminate.
Qed.

Lemma split_on_without s :
  has_dot s = false -> split_on "." s = [s].
Proof.
  induction s as [|c s IH]; [reflexivity|].
  unfold has_dot. simpl. intros H. apply orb_false_iff in H as [Hc Hs].
  rewrite Hc. rewrite (IH Hs). reflexivity.
Qed.

Lemma last_cons_nonempty {A : Type} (x : A) (l : list A) (d : A) :
  l <> [] -> List.last (x :: l) d = List.last l d.
Proof. destruct l; [congruence | reflexivity]. Qed.

Lemma split_on_two sep p r : (2 <= length (split_on sep (p +:+ String sep r)))%nat.
Proof.
  induction p as [|c p IH]; simpl.
  - rewrite bool_decide_eq_true_2 by reflexivity. simpl.
    pose proof (split_on_nonempty sep r). destruct (split_on sep r); simpl; [congruence|lia].
  - destruct (bool_decide (c = sep)); simpl; [lia|].
    destruct (split_on sep (p +:+ String sep r)); simpl in *; lia.
Qed.

Lemma last_split_on_app sep p r d :
  List.last (split_on sep (p +:+ String sep r)) d = List.last (split_on sep r) d.
Proof.
  induction p as [|c p IH]; simpl.
  - rewrite bool_decide_eq_true_2 by reflexivity.
    apply last_cons_nonempty, split_on_nonempty.
  - destruct (bool_decide (c = sep)).
    + rewrite last_cons_nonempty by apply split_on_nonempty. exact IH.
    + pose proof (split_on_two sep p r) as H2.
      destruct (split_on sep (p +:+ String sep r)) as [|seg rest]; [simpl in H2; lia|].
      destruct rest as [|seg' rest]; [simpl in H2; lia|].
      rewrite <- IH. reflexivity.
Qed.

Lemma split_on_segments s :
  Forall (λ seg, has_dot seg = false) (split_on "." s).
Proof.
  induction s as [|c s IH]; simpl; [repeat constructor|].
  destruct (bool_decide (c = "."%char)) eqn:E.
  - constructor; [reflexivity | exact IH].
  - destruct (split_on "." s) as [|seg rest]; [repeat constructor; simpl|].
    + unfold has_dot. simpl. rewrite E. reflexivity.
    + apply Forall_cons_1 in IH as [Hseg Hrest]. constructor; [|exact Hrest].
      unfold has_dot in *. simpl. rewrite E. exact Hseg.
Qed.

(** X20: [metric.split('.')[-1]]. The last segment never contains a dot; a
    name without dot is its own last segment; and whatever precedes the last
    dot is ignored: for a dot-free name, the last segment of prefix + "." +
    name is name. *)
Theorem last_segment_is_the_suffix (p name : string) :
  has_dot name = false ->
  last_segment (p +:+ "." +:+ name) = name
  /\ last_segment name = name
  /\ forall s, has_dot (last_segment s) = false.
Proof.
  intros Hn. unfold last_segment. split; [|split].
  - change (p +:+ "." +:+ name) with (p +:+ String "." name).
    rewrite last_split_on_app, split_on_without by exact Hn. reflexivity.
  - rewrite split_on_without by exact Hn. reflexivity.
  - intros s. pose proof (split_on_segments s) as Hall.
    pose proof (split_on_nonempty "." s) as Hne.
    induction (split_on "." s) as [|seg rest IH]; [congruence|].
    apply Forall_cons_1 in Hall as [Hseg Hrest].
    destruct rest as [|seg' rest]; [exact Hseg|].
    apply IH; [exact Hrest | discriminate].
Qed.

Lemma last_segment_is_the_suffix_witness :
  last_segment ("api.crypto.x" +:+ "." +:+ "bitcoin") = "bitcoin".
Proof.
  apply (last_segment_is_the_suffix "api.crypto.x" "bitcoin"). reflexivity.
Defined.

(** ** What /search advertises *)

(** X21: every metric name that [POST /search] advertises is one that
    [POST /query] can answer with datapoints: it is dispatched to a
    connector, and for an API connector its last segment is a name that
    connector returns; none of them falls under the targets that are
    always empty. *)
Theorem search_names_are_answerable :
  Forall (λ metric, answerable metric = true
                    /\ family_of metric <> Unmatched
                    /\ ~ outside_defaults metric) search.
Proof.
  assert (forall metric, answerable metric = true ->
            family_of metric <> Unmatched /\ ~ outside_defaults metric) as H.
  { intros metric Ha. unfold answerable in Ha.
    pose proof (family_of_sound metric) as Hs.
    destruct (family_of metric) eqn:Ef; try discriminate;
      (split; [discriminate|]); intros [[Hp Hn] | [[Hp Hn] | [Hp Hn]]];
      try (apply bool_decide_eq_true in Ha; apply Hn, list_elem_of_In, Ha);
      match goal with
      | Hs : is_prefix ?q metric = true, Hp : is_prefix ?p metric = true |- _ =>
          rewrite (is_prefix_exclusive q p metric eq_refl eq_refl Hs) in Hp;
          discriminate
      end. }
  unfold search.
  repeat (constructor; [split; [vm_compute; reflexivity | apply H; vm_compute; reflexivity]|]).
  constructor.
Qed.

(** ** One failing target fails the request *)

Lemma query_targets_app w a b ts pre : forall rest results st,
  query_targets w a b ts (pre ++ rest) results st =
  match query_targets w a b ts pre results st with
  | (Ok r, st1) => query_targets w a b ts rest r st1
  | (Raise e, st1) => (Raise e, st1)
  end.
Proof.
  induction pre as [|metric pre IH]; intros rest results st; simpl; [reflexivity|].
  destruct (query_target w a b ts metric st) as [[entry|e] st1]; [apply IH | reflexivity].
Qed.

Lemma replicate_value_type_error jitter value ts :
  ts <> [] -> (forall t, jitter value t = Raise TypeError) ->
  replicate_value jitter value ts = Raise TypeError.
Proof.
  intros Hne Hj. destruct ts as [|t ts]; [congruence|].
  simpl. rewrite Hj. reflexivity.
Qed.

(** X22: an upstream value that is not a number, such as a JSON null or a
    string, is stored by the connector as it is and makes the gateway raise
    TypeError as soon as there is a timestamp to add jitter for; the
    exception ends the whole request, and the entries already built for the
    earlier targets are not returned. *)
Theorem non_numeric_value_fails_request (w : world) (req : query_request)
    (st st1 : state) (ts : list Z) (pre post : list string) (metric : string)
    (results : list series) (v : json) :
  generate_timestamps (range_from req) (range_to req) = Ok ts -> ts <> [] ->
  targets req = pre ++ metric :: post ->
  query_targets w (range_from req) (range_to req) ts pre [] st = (Ok results, st1) ->
  connector_value w metric st1 = Some v ->
  as_number v = Raise TypeError ->
  fst (query w req st) = Raise TypeError.
Proof.
  intros Hgen Hne Htargets Hpre Hv Hnum. unfold query.
  rewrite Hgen, Htargets, query_targets_app, Hpre. simpl.
  rewrite query_target_by_family. unfold connector_value in Hv.
  assert (forall jitter,
            (forall t, jitter v t = Raise TypeError) ->
            forall data : gmap string json, data !! last_segment metric = Some v ->
            api_datapoints jitter data (last_segment metric) ts = Raise TypeError)
    as Hapi.
  { intros jitter Hj data Hd. unfold api_datapoints. rewrite Hd.
    apply replicate_value_type_error; assumption. }
  destruct (family_of metric); try discriminate; simpl.
  - rewrite (Hapi weather_jitter); [reflexivity | | exact Hv].
    intros t. unfold weather_jitter, py_add_float. rewrite Hnum. reflexivity.
  - rewrite (Hapi crypto_jitter); [reflexivity | | exact Hv].
    intros t. unfold crypto_jitter, py_add_int. rewrite Hnum. reflexivity.
  - rewrite (Hapi github_jitter); [reflexivity | | exact Hv].
    intros t. unfold github_jitter, py_add_int. rewrite Hnum. reflexivity.
Qed.

Lemma non_numeric_value_fails_request_witness :
  fst (query (http_world null_price) unknown_then_bitcoin fresh_state)
  = Raise TypeError.
Proof.
  apply (non_numeric_value_fails_request (http_world null_price) unknown_then_bitcoin
           fresh_state fresh_state [1704067200000; 1704067500000; 1704067800000]
           ["unknown.thing"] [] "api.crypto.bitcoin"
           [entry_of "unknown.thing" []] JNull).
  - vm_compute. reflexivity.
  - discriminate.
  - reflexivity.
  - vm_compute. reflexivity.
  - vm_compute. reflexivity.
  - reflexivity.
Defined.

(** ** Database rows become datapoints *)


